(** * Shallow embedding of the contract-harvesting pipeline of [src/main.rs]

    The Rust program is modelled function by function.  Panics ([unwrap],
    [expect], out-of-bounds indexing) are made explicit with the [Outcome]
    type; the observable side effects of [main] (printing, logging, the
    calls into git and the compiler) are recorded in a trace.  Library
    services the program calls (chrono's RFC 3339 parser, the clock, the
    file system, git, the Solidity compiler, the HTTP client) are inputs of
    the model: functions passed as arguments. *)

From Stdlib Require Import String Ascii List ZArith Bool Lia.
Import ListNotations.
Open Scope string_scope.

(* ------------------------------------------------------------------ *)
(** ** Panics and traces *)

(** Result of running Rust code that may panic. *)
Inductive Outcome (A : Type) : Type :=
| Ret (a : A)
| Panic (msg : string).
Arguments Ret {A} a.
Arguments Panic {A} msg.

(** Rust's [Result]. *)
Inductive result (A E : Type) : Type :=
| Ok (a : A)
| Err (e : E).
Arguments Ok {A E} a.
Arguments Err {A E} e.

Definition unwrap_or {A E} (r : result A E) (d : A) : A :=
  match r with Ok a => a | Err _ => d end.

Definition unwrap_msg : string :=
  "called `Option::unwrap()` on a `None` value".

(** [Option::unwrap]. *)
Definition unwrap {A} (o : option A) : Outcome A :=
  match o with Some a => Ret a | None => Panic unwrap_msg end.

(** Observable events of a run. *)
Inductive Event : Type :=
| EvPrint (line : string)                    (* println! / eprintln! *)
| EvLog (line : string)                      (* tracing::error! *)
| EvClone (url local_path : string)          (* Repository::clone_recurse *)
| EvCompile (contracts_path remappings_path : string)
                                             (* compile_contracts_from_repo *)
| EvSend (url : string).                     (* an HTTP request is sent *)

(** Computations that may panic and emit events. *)
Definition M (A : Type) : Type := (list Event * Outcome A)%type.

Definition mret {A} (a : A) : M A := ([], Ret a).

Definition mbind {A B} (m : M A) (f : A -> M B) : M B :=
  match m with
  | (t, Ret a) => (app t (fst (f a)), snd (f a))
  | (t, Panic s) => (t, Panic s)
  end.

Definition emit (e : Event) : M unit := ([e], Ret tt).

Definition lift {A} (o : Outcome A) : M A := ([], o).

Notation "x <- m ;; k" := (mbind m (fun x => k))
  (at level 61, m at next level, right associativity).
Notation "m ;;; k" := (mbind m (fun _ => k))
  (at level 61, right associativity).

(** [std::panic::catch_unwind]: a panic becomes an [Err] carrying its
    payload; events emitted before the panic are kept. *)
Definition catch_unwind {A} (m : M A) : M (result A string) :=
  match m with
  | (t, Ret a) => (t, Ret (Ok a))
  | (t, Panic s) => (t, Ret (Err s))
  end.

(* ------------------------------------------------------------------ *)
(** ** Strings as Rust's [str] (ASCII text) *)

Definition string_rev (s : string) : string :=
  string_of_list_ascii (rev (list_ascii_of_string s)).

(** [str::ends_with]. *)
Definition ends_with (suffix s : string) : bool :=
  String.prefix (string_rev suffix) (string_rev s).

(** [char::is_whitespace] on ASCII. *)
Definition is_whitespace (a : ascii) : bool :=
  let n := nat_of_ascii a in
  ((9 <=? n) && (n <=? 13))%nat || (n =? 32)%nat.

Fixpoint trim_start (s : string) : string :=
  match s with
  | EmptyString => EmptyString
  | String a s' => if is_whitespace a then trim_start s' else s
  end.

Definition trim_end (s : string) : string :=
  string_rev (trim_start (string_rev s)).

(** [str::trim]. *)
Definition trim (s : string) : string := trim_end (trim_start s).

(** [str::split(c)] with a [char] pattern: every occurrence of [c]
    separates two pieces, so there is always one more piece than there are
    occurrences. *)
Fixpoint split_on (c : ascii) (s : string) : list string :=
  match s with
  | EmptyString => [EmptyString]
  | String a s' =>
      let r := split_on c s' in
      if Ascii.eqb a c then EmptyString :: r
      else match r with
           | h :: t => String a h :: t
           | [] => [String a EmptyString]
           end
  end.

(** One trailing ['\r'] removed. *)
Definition strip_cr (s : string) : string :=
  match list_ascii_of_string (string_rev s) with
  | a :: rest => if Ascii.eqb a "013"%char
                 then string_rev (string_of_list_ascii rest) else s
  | [] => s
  end.

(** [str::lines]: split at ['\n']; a line ended by ['\n'] also loses a
    ['\r'] just before it; the empty piece after a final newline is not a
    line. *)
Fixpoint lines_of_pieces (pieces : list string) : list string :=
  match pieces with
  | [] => []
  | [last] => if String.eqb last EmptyString then [] else [last]
  | p :: rest => strip_cr p :: lines_of_pieces rest
  end.

Definition lines (s : string) : list string :=
  lines_of_pieces (split_on "010"%char s).

Fixpoint drop_while {A} (p : A -> bool) (l : list A) : list A :=
  match l with
  | [] => []
  | x :: r => if p x then drop_while p r else l
  end.

Fixpoint take_while {A} (p : A -> bool) (l : list A) : list A :=
  match l with
  | [] => []
  | x :: r => if p x then x :: take_while p r else []
  end.

Definition is_slash (a : ascii) : bool := Ascii.eqb a "/"%char.

(** [Path::parent] on a ['/']-separated path: the path without its last
    component and without the separators before it; the root for a
    top-level entry, the empty path for a bare name, and [None] for the
    empty path and the root itself.  ([Path] also drops interior ["."]
    components when it splits a path; the paths of this program have
    none.) *)
Definition path_parent (p : string) : option string :=
  let r := drop_while is_slash (rev (list_ascii_of_string p)) in
  match r with
  | [] => None
  | _ =>
      match drop_while (fun a => negb (is_slash a)) r with
      | [] => Some EmptyString
      | sep =>
          match drop_while is_slash sep with
          | [] => Some "/"
          | pre => Some (string_of_list_ascii (rev pre))
          end
      end
  end.

(** [Path::file_name]: the last component, [None] when there is none or
    it is [".."]. *)
Definition path_file_name (p : string) : option string :=
  let r := drop_while is_slash (rev (list_ascii_of_string p)) in
  let seg := string_of_list_ascii (rev (take_while (fun a => negb (is_slash a)) r)) in
  if String.eqb seg EmptyString || String.eqb seg ".." then None else Some seg.

(* ------------------------------------------------------------------ *)
(** ** Contest records (lines 27-71) *)

Record SponsorData : Type := mkSponsorData {
  sponsor_created_at : option string;
  sponsor_image : option string;
  sponsor_imageUrl : option string;
  sponsor_link : option string;
  sponsor_name : option string;
  sponsor_uid : option string;
  sponsor_updated_at : option string
}.

Record Contest : Type := mkContest {
  amount : option string;
  audit_type : option string;
  award_coin : option string;
  codeAccess : option string;
  code_access : option string;
  contest_id : option N;
  contestid : option N;
  details : option string;
  end_time : option string;
  findingsRepo : option string;
  findings_repo : option string;
  formatted_amount : option string;
  gas_award_pool : option N;
  hide : option bool;
  hm_award_pool : option N;
  league : option string;
  qa_award_pool : option N;
  repo : option string;
  slug : option string;
  sponsor : option string;
  sponsor_data : SponsorData;
  start_time : option string;
  status : option string;
  title : option string;
  total_award_pool : option N;
  contest_type : option string;   (* [r#type] *)
  uid : option string
}.

(** chrono's [ParseError]. *)
Inductive ParseError : Type :=
| ParseErrorInvalid.

(** [is_active_and_public] (lines 131-137).  [now] is the value returned
    by [Utc::now()] for this call; [parse_from_rfc3339] is chrono's
    [DateTime::parse_from_rfc3339], giving the instant in nanoseconds since
    the epoch.  Rust's [&&] does not evaluate [code_access.unwrap()] when
    the end time is not after [now]. *)
Definition is_active_and_public (parse_from_rfc3339 : string -> option Z)
    (now : Z) (contest : Contest) : Outcome (result bool ParseError) :=
  let current_time := now in
  match contest.(end_time) with
  | None => Panic unwrap_msg
  | Some end_time_s =>
      match parse_from_rfc3339 end_time_s with
      | None => Ret (Err ParseErrorInvalid)
      | Some end_time =>
          if Z.ltb current_time end_time then
            match contest.(code_access) with
            | None => Panic unwrap_msg
            | Some access => Ret (Ok (String.eqb access "public"))
            end
          else Ret (Ok false)
      end
  end.

(** The stage [.filter(|contest| is_active_and_public(contest)
    .unwrap_or(false))] of [get_active_contests] (line 120), over the
    records that deserialised.  The predicate runs once per record, in
    order, and each run reads the clock: [clock k] is the [k]-th reading
    of [Utc::now()]. *)
Fixpoint filter_active_and_public (parse_from_rfc3339 : string -> option Z)
    (clock : nat -> Z) (k : nat) (contests : list Contest)
    : Outcome (list Contest) :=
  match contests with
  | [] => Ret []
  | contest :: rest =>
      match is_active_and_public parse_from_rfc3339 (clock k) contest with
      | Panic m => Panic m
      | Ret r =>
          match filter_active_and_public parse_from_rfc3339 clock (S k) rest with
          | Panic m => Panic m
          | Ret kept => Ret (if unwrap_or r false then contest :: kept else kept)
          end
      end
  end.

(** The same stage with [Utc::now()] as an effect: a computation takes the
    number of clock readings made so far and returns the new number with
    its outcome; the [n]-th reading of the clock is [clock n]. *)
Definition Clocked (A : Type) : Type := nat -> nat * Outcome A.

Definition cret {A} (a : A) : Clocked A := fun n => (n, Ret a).

Definition cbind {A B} (m : Clocked A) (f : A -> Clocked B) : Clocked B :=
  fun n => match m n with
           | (n', Ret a) => f a n'
           | (n', Panic msg) => (n', Panic msg)
           end.

Definition clift {A} (o : Outcome A) : Clocked A := fun n => (n, o).

(** [Utc::now()]. *)
Definition utc_now (clock : nat -> Z) : Clocked Z := fun n => (S n, Ret (clock n)).

(** [is_active_and_public] (lines 131-137): [let current_time = Utc::now();]
    first, then the rest of the body on that reading. *)
Definition is_active_and_public_clocked (parse_from_rfc3339 : string -> option Z)
    (clock : nat -> Z) (contest : Contest) : Clocked (result bool ParseError) :=
  cbind (utc_now clock) (fun current_time =>
    clift (is_active_and_public parse_from_rfc3339 current_time contest)).

(** [.filter(|contest| is_active_and_public(contest).unwrap_or(false))
    .collect()]: the predicate runs on each record in turn; a record is
    pushed when it holds. *)
Fixpoint filter_active_and_public_clocked (parse_from_rfc3339 : string -> option Z)
    (clock : nat -> Z) (contests : list Contest) : Clocked (list Contest) :=
  match contests with
  | [] => cret []
  | contest :: rest =>
      cbind (is_active_and_public_clocked parse_from_rfc3339 clock contest) (fun r =>
      cbind (filter_active_and_public_clocked parse_from_rfc3339 clock rest) (fun kept =>
      cret (if unwrap_or r false then contest :: kept else kept)))
  end.

(** A parser for the RFC 3339 subset ["YYYY-MM-DDTHH:MM:SS"] followed by
    ["Z"] or ["+HH:MM"]/["-HH:MM"], giving nanoseconds since the epoch.  It
    stands for chrono's parser when the definitions above are run on
    concrete records. *)
Definition digit_val (a : ascii) : option Z :=
  let n := nat_of_ascii a in
  if ((48 <=? n) && (n <=? 57))%nat then Some (Z.of_nat (n - 48)) else None.

Fixpoint read_digits (n : nat) (s : string) (acc : Z) : option (Z * string) :=
  match n with
  | O => Some (acc, s)
  | S n' =>
      match s with
      | String a s' =>
          match digit_val a with
          | Some d => read_digits n' s' (acc * 10 + d)%Z
          | None => None
          end
      | EmptyString => None
      end
  end.

Definition expect_char (ok : ascii -> bool) (s : string) : option string :=
  match s with
  | String a s' => if ok a then Some s' else None
  | EmptyString => None
  end.

Notation "' p <-? m ;; k" := (match m with Some p => k | None => None end)
  (at level 61, p pattern, m at next level, right associativity).

(** Days from 1970-01-01 to a proleptic Gregorian date. *)
Definition days_from_civil (y m d : Z) : Z :=
  let y := if (m <=? 2)%Z then (y - 1)%Z else y in
  let era := (y / 400)%Z in
  let yoe := (y - era * 400)%Z in
  let mp := if (m <=? 2)%Z then (m + 9)%Z else (m - 3)%Z in
  let doy := ((153 * mp + 2) / 5 + d - 1)%Z in
  let doe := (yoe * 365 + yoe / 4 - yoe / 100 + doy)%Z in
  (era * 146097 + doe - 719468)%Z.

Definition days_in_month (y m : Z) : Z :=
  if (m =? 2)%Z then
    if ((Z.modulo y 4 =? 0) && negb (Z.modulo y 100 =? 0)
        || (Z.modulo y 400 =? 0))%Z then 29 else 28
  else if (m =? 4)%Z || (m =? 6)%Z || (m =? 9)%Z || (m =? 11)%Z then 30
  else 31.

Definition rfc3339_subset (s : string) : option Z :=
  ' (y, s) <-? read_digits 4 s 0 ;;
  ' s <-? expect_char (fun a => Ascii.eqb a "-"%char) s ;;
  ' (mo, s) <-? read_digits 2 s 0 ;;
  ' s <-? expect_char (fun a => Ascii.eqb a "-"%char) s ;;
  ' (d, s) <-? read_digits 2 s 0 ;;
  ' s <-? expect_char (fun a => Ascii.eqb a "T"%char || Ascii.eqb a "t"%char
                                || Ascii.eqb a " "%char) s ;;
  ' (h, s) <-? read_digits 2 s 0 ;;
  ' s <-? expect_char (fun a => Ascii.eqb a ":"%char) s ;;
  ' (mi, s) <-? read_digits 2 s 0 ;;
  ' s <-? expect_char (fun a => Ascii.eqb a ":"%char) s ;;
  ' (se, s) <-? read_digits 2 s 0 ;;
  ' offset <-? (match s with
                | String z EmptyString =>
                    if Ascii.eqb z "Z"%char || Ascii.eqb z "z"%char
                    then Some 0%Z else None
                | String sign s =>
                    ' sg <-? (if Ascii.eqb sign "+"%char then Some 1%Z
                              else if Ascii.eqb sign "-"%char then Some (-1)%Z
                              else None) ;;
                    ' (oh, s) <-? read_digits 2 s 0 ;;
                    ' s <-? expect_char (fun a => Ascii.eqb a ":"%char) s ;;
                    ' (om, s) <-? read_digits 2 s 0 ;;
                    if String.eqb s EmptyString && (oh <? 24)%Z && (om <? 60)%Z
                    then Some (sg * (oh * 3600 + om * 60))%Z else None
                | EmptyString => None
                end) ;;
  if ((1 <=? mo) && (mo <=? 12) && (1 <=? d) && (d <=? days_in_month y mo)
      && (h <? 24) && (mi <? 60) && (se <? 60))%Z
  then Some (((days_from_civil y mo d * 86400 + h * 3600 + mi * 60 + se)
              - offset) * 1000000000)%Z
  else None.

(* ------------------------------------------------------------------ *)
(** ** Repository tree listing (lines 73-83, 156-185) *)

Record GitHubTreeEntry : Type := mkGitHubTreeEntry {
  entry_path : string;
  entry_type : string;   (* [r#type] *)
  entry_url : string
}.

Record GitHubTree : Type := mkGitHubTree { tree : list GitHubTreeEntry }.

(** The closure of [.map] at lines 172-181. *)
Definition url_and_filename (entry : GitHubTreeEntry) : string * string :=
  let filename :=
    match path_file_name entry.(entry_path) with
    | Some filename => filename          (* [to_str] succeeds on UTF-8 *)
    | None => entry.(entry_path)
    end in
  (entry.(entry_url), filename).

(** The closure of [.filter] at line 171. *)
Definition is_sol_blob (entry : GitHubTreeEntry) : bool :=
  String.eqb entry.(entry_type) "blob" && ends_with ".sol" entry.(entry_path).

(** [get_contracts_urls]: [response] is the result of [send()?] and
    [.json::<GitHubTree>()?]; an error there is returned. *)
Definition get_contracts_urls {E} (response : result GitHubTree E)
    : result (list (string * string)) E :=
  match response with
  | Err e => Err e
  | Ok response =>
      Ok (map url_and_filename (filter is_sol_blob response.(tree)))
  end.

(* ------------------------------------------------------------------ *)
(** ** Compiler artifacts and bytecode extraction (lines 238-266) *)

(** ethers-solc's [BytecodeObject]. *)
Inductive BytecodeObject : Type :=
| Bytecode (bytes : list Byte.byte)
| Unlinked (placeholder : string).

Record CompactBytecode : Type := mkBytecode { object : BytecodeObject }.
Record Evm : Type := mkEvm { bytecode : option CompactBytecode }.
Record Contract : Type := mkContract { evm : option Evm }.

(** [Contracts = BTreeMap<String, BTreeMap<String, Contract>>], each map
    given by its list of entries in iteration order (keys distinct). *)
Definition FileContracts : Type := list (string * Contract).
Definition Contracts : Type := list (string * FileContracts).

(** [BTreeMap::get]. *)
Fixpoint map_get {V} (k : string) (m : list (string * V)) : option V :=
  match m with
  | [] => None
  | (k', v) :: m' => if String.eqb k k' then Some v else map_get k m'
  end.

Definition hex_digit (n : N) : ascii :=
  if (n <? 10)%N then ascii_of_N (48 + n) else ascii_of_N (87 + n).

(** [hex::encode]: two lowercase hex digits per byte. *)
Fixpoint hex_encode (bytes : list Byte.byte) : string :=
  match bytes with
  | [] => EmptyString
  | b :: bs =>
      let n := Byte.to_N b in
      String (hex_digit (N.div n 16)) (String (hex_digit (N.modulo n 16))
                                               (hex_encode bs))
  end.

(** The closure of [.filter_map] at lines 244-257. *)
Definition contract_bytecode (entry : string * Contract) : option (string * string) :=
  let (contract_name, contract) := entry in
  match contract.(evm) with
  | None => None
  | Some evm =>
      match evm.(bytecode) with
      | None => None
      | Some bytecode =>
          match bytecode.(object) with
          | Bytecode bytes => Some (contract_name, hex_encode bytes)
          | Unlinked _ => None
          end
      end
  end.

Fixpoint filter_map {A B} (f : A -> option B) (l : list A) : list B :=
  match l with
  | [] => []
  | x :: r => match f x with Some y => y :: filter_map f r | None => filter_map f r end
  end.

Definition get_contracts_bytecodes (contracts : Contracts) (filename : string)
    : option (list (string * string)) :=
  match map_get filename contracts with
  | Some file_contracts =>
      let bytecodes := filter_map contract_bytecode file_contracts in
      match bytecodes with
      | [] => None
      | _ => Some bytecodes
      end
  | None => None
  end.

(* ------------------------------------------------------------------ *)
(** ** Remapping files (lines 268-294) *)

(** ethers-solc's [Remapping]. *)
Record Remapping : Type := mkRemapping { name : string; path : string }.

(** The body of the loop at lines 281-291 for one line: [None] when the
    line is not pushed. *)
Definition remapping_of_line (dir : string) (line : string) : option Remapping :=
  match split_on "="%char (trim line) with
  | [part0; part1] =>
      let name := trim part0 in
      let path := trim part1 in
      let path := "/" ++ path in          (* insert_str(0, "/") *)
      let path := dir ++ path in          (* insert_str(0, dir) *)
      Some {| name := name; path := path |}
  | _ => None
  end.

Definition expect_read_msg : string := "Failed to read remappings file".

(** [read_remappings_file]; [read_to_string] is [std::fs::read_to_string]
    ([None] when the file cannot be read as text). *)
Definition read_remappings_file (read_to_string : string -> option string)
    (file_path : string) : Outcome (list Remapping) :=
  match read_to_string file_path with
  | None => Panic expect_read_msg
  | Some contents =>
      match path_parent file_path with
      | None => Panic unwrap_msg
      | Some file_path_wout_remappings =>
          Ret (filter_map (remapping_of_line file_path_wout_remappings)
                          (lines contents))
      end
  end.

(* ------------------------------------------------------------------ *)
(** ** Cloning, whole-project compilation and the main loop
       (lines 296-366) *)

(** The compiler settings the program sets: the via-IR pipeline and the
    remappings (the output selection is always the default one). *)
Record Settings : Type := mkSettings {
  via_ir : bool;
  remappings : list Remapping
}.

Record CompilerInput : Type := mkCompilerInput {
  input_sources : list string;
  input_settings : Settings
}.

(** The services [main] relies on. *)
Record World : Type := mkWorld {
  read_to_string : string -> option string;        (* std::fs::read_to_string *)
  metadata_is_ok : string -> bool;                 (* std::fs::metadata(p).is_ok() *)
  clone_recurse : string -> string -> Outcome (result unit string);
                                                   (* Repository::clone_recurse *)
  compiler_input_new : string -> result (list CompilerInput) string;
                                                   (* CompilerInput::new *)
  solc_compile : CompilerInput -> result Contracts string
                                                   (* Solc::compile(..).contracts *)
}.

Definition index_msg : string := "index out of bounds".

(** [Vec] indexing [v[i]]. *)
Definition index {A} (i : nat) (v : list A) : Outcome A :=
  match nth_error v i with Some a => Ret a | None => Panic index_msg end.

Definition clone_repo (w : World) (repo_url local_path : string)
    : M (result unit string) :=
  emit (EvClone repo_url local_path) ;;;
  lift (clone_recurse w repo_url local_path).

Definition compile_contracts_from_repo (w : World)
    (contracts_path remappings_path : string) : M (result Contracts string) :=
  emit (EvCompile contracts_path remappings_path) ;;;
  match compiler_input_new w contracts_path with
  | Err e => mret (Err e)                                  (* [?] *)
  | Ok input =>
      let settings := {| via_ir := true; remappings := [] |} in
      remappings <- lift (read_remappings_file (read_to_string w) remappings_path) ;;
      let settings := {| via_ir := settings.(via_ir); remappings := remappings |} in
      input0 <- lift (index 0 input) ;;
      let input := {| input_sources := input0.(input_sources);
                      input_settings := settings |} in
      match solc_compile w input with
      | Err e => mret (Err e)                              (* [?] *)
      | Ok contracts => mret (Ok contracts)
      end
  end.

Fixpoint last_opt {A} (l : list A) : option A :=
  match l with
  | [] => None
  | [x] => Some x
  | _ :: r => last_opt r
  end.

Definition cloned_msg (repo_name : string) : string :=
  repo_name ++ " cloned successfully.".

Definition ignoring_msg : string := "Ignoring repository due to lack of access.".

(** One iteration of the [for contest in contests] loop of [main]. *)
Definition process_contest (w : World) (contest : Contest) : M unit :=
  repo_url <- lift (unwrap contest.(repo)) ;;
  let url_parts := split_on "/"%char repo_url in
  repo_name <- lift (unwrap (last_opt url_parts)) ;;
  let local_path := "./clones/" ++ repo_name in
  (* [true] when the iteration goes on past the clone step,
     [false] on [continue] *)
  go_on <- (if negb (metadata_is_ok w local_path) then
              result <- catch_unwind (clone_repo w repo_url local_path) ;;
              match result with
              | Ok (Ok tt) => emit (EvPrint (cloned_msg repo_name)) ;;; mret true
              | Ok (Err err) => mret false
              | Err _ => emit (EvPrint ignoring_msg) ;;; mret true
              end
            else mret true) ;;
  if go_on then
    let contracts_path := local_path ++ "/src" in
    let remappings_path := local_path ++ "/remappings.txt" in
    output <- compile_contracts_from_repo w contracts_path remappings_path ;;
    mret tt
  else mret tt.

(** The loop of [main] (lines 326-365) over the contests returned by
    [get_active_contests]. *)
Fixpoint main_loop (w : World) (contests : list Contest) : M unit :=
  match contests with
  | [] => mret tt
  | contest :: rest => process_contest w contest ;;; main_loop w rest
  end.

(* ------------------------------------------------------------------ *)
(** ** Default branch resolution (lines 188-216) *)

(** [serde_json::Value]. *)
#[warnings="-register-all"]
Inductive JsonValue : Type :=
| JNull
| JBool (b : bool)
| JNumber (n : Z)
| JString (s : string)
| JArray (items : list JsonValue)
| JObject (fields : list (string * JsonValue)).

(** [Value::get] with a string key. *)
Definition json_get (v : JsonValue) (key : string) : option JsonValue :=
  match v with
  | JObject fields => map_get key fields
  | _ => None
  end.

(** A response of the blocking client: the status code and what
    [response.json()] decodes the body to ([None]: not JSON). *)
Record Response : Type := mkResponse {
  resp_status : Z;
  resp_body_json : option JsonValue
}.

(** [StatusCode::is_success]. *)
Definition is_success (code : Z) : bool := (200 <=? code)%Z && (code <=? 299)%Z.

(** The process environment and the HTTP client: the value of
    [GITHUB_PA_TOKEN] and the outcome of [.send()] for a URL. *)
Record HttpEnv : Type := mkHttpEnv {
  github_pa_token : option string;
  send : string -> result Response string
}.

(** The [Box<dyn Error>] values the function returns. *)
Inductive BranchError : Type :=
| DecodeError                  (* from [response.json()?] *)
| MessageError (msg : string). (* from [.into()] of a [&str] *)

Definition result_unwrap_msg : string :=
  "called `Result::unwrap()` on an `Err` value".

Definition not_found_log : string := "Failed to retrieve default branch from GitHub API".
Definition not_found_msg : string := "Default branch not found".

Definition get_default_branch (env : HttpEnv) (owner repo : string)
    : M (result string BranchError) :=
  let github_api_url := "https://api.github.com/repos" in
  let url := github_api_url ++ "/" ++ owner ++ "/" ++ repo in
  let not_found :=
    emit (EvLog not_found_log) ;;; mret (Err (MessageError not_found_msg)) in
  token <- lift (match env.(github_pa_token) with
                 | Some t => Ret t
                 | None => Panic result_unwrap_msg
                 end) ;;
  emit (EvSend url) ;;;
  response <- (match send env url with
               | Ok response => mret response
               | Err err =>
                   emit (EvLog ("Failed to send request to GitHub API: " ++ err)) ;;;
                   lift (Panic result_unwrap_msg)
               end) ;;
  if is_success response.(resp_status) then
    match response.(resp_body_json) with
    | None => mret (Err DecodeError)
    | Some json =>
        match json_get json "default_branch" with
        | Some (JString branch_name) => mret (Ok branch_name)
        | _ => not_found
        end
    end
  else not_found.

(* ------------------------------------------------------------------ *)
(** ** Requests to the GitHub API (lines 73-94, 139-185) *)

(** The [reqwest::Error] values of [clone_contract] and
    [get_contracts_urls]. *)
Inductive ReqwestError : Type :=
| RequestFailed (msg : string)   (* from [.send()?] *)
| BodyDecodeFailed.              (* from [.json::<T>()?] *)

Record GitHubFile : Type := mkGitHubFile {
  file_sha : string;
  file_node_id : string;
  file_size : N;
  file_url : string;
  file_content : string;
  file_encoding : string
}.

(** serde's derived [Deserialize] for the records of this program, from a
    [serde_json::Value] (objects have distinct keys, as in a
    [serde_json::Map]).  A field of type [Option<T>] accepts [null] or a
    [T], and a missing one is [None]; any other field must be present;
    unknown fields are ignored; [u32] and [u64] accept the integers in
    their range ([JsonValue] has no floating-point numbers).  A struct is
    also accepted from an array holding exactly its fields in declaration
    order. *)
Definition de_string (v : JsonValue) : option string :=
  match v with JString s => Some s | _ => None end.

Definition de_bool (v : JsonValue) : option bool :=
  match v with JBool b => Some b | _ => None end.

Definition de_uint (bits : Z) (v : JsonValue) : option N :=
  match v with
  | JNumber n => if (0 <=? n)%Z && (n <? 2 ^ bits)%Z then Some (Z.to_N n) else None
  | _ => None
  end.

Definition de_option {T} (de : JsonValue -> option T) (v : option JsonValue)
    : option (option T) :=
  match v with
  | None => Some None
  | Some JNull => Some None
  | Some x => match de x with Some t => Some (Some t) | None => None end
  end.

Definition de_required {T} (de : JsonValue -> option T) (v : option JsonValue)
    : option T :=
  match v with Some x => de x | None => None end.

Fixpoint de_seq {T} (de : JsonValue -> option T) (items : list JsonValue)
    : option (list T) :=
  match items with
  | [] => Some []
  | x :: rest =>
      match de x with
      | Some t => match de_seq de rest with Some ts => Some (t :: ts) | None => None end
      | None => None
      end
  end.

(** [Vec<T>]. *)
Definition de_vec {T} (de : JsonValue -> option T) (v : JsonValue) : option (list T) :=
  match v with JArray items => de_seq de items | _ => None end.

(** How a struct of [arity] fields reads its fields: by name from an
    object, by position from an array of exactly [arity] elements. *)
Definition struct_fields (v : JsonValue) (arity : nat)
    : option (string -> nat -> option JsonValue) :=
  match v with
  | JObject fields => Some (fun key _ => map_get key fields)
  | JArray items =>
      if Nat.eqb (List.length items) arity then Some (fun _ i => nth_error items i)
      else None
  | _ => None
  end.

Definition github_tree_entry_of_json (v : JsonValue) : option GitHubTreeEntry :=
  ' get <-? struct_fields v 3 ;;
  ' path <-? de_required de_string (get "path" 0) ;;
  ' type_ <-? de_required de_string (get "type" 1) ;;
  ' url <-? de_required de_string (get "url" 2) ;;
  Some (mkGitHubTreeEntry path type_ url).

Definition github_tree_of_json (v : JsonValue) : option GitHubTree :=
  ' get <-? struct_fields v 1 ;;
  ' entries <-? de_required (de_vec github_tree_entry_of_json) (get "tree" 0) ;;
  Some (mkGitHubTree entries).

Definition github_file_of_json (v : JsonValue) : option GitHubFile :=
  ' get <-? struct_fields v 6 ;;
  ' sha <-? de_required de_string (get "sha" 0) ;;
  ' node_id <-? de_required de_string (get "node_id" 1) ;;
  ' size <-? de_required (de_uint 64) (get "size" 2) ;;
  ' url <-? de_required de_string (get "url" 3) ;;
  ' content <-? de_required de_string (get "content" 4) ;;
  ' encoding <-? de_required de_string (get "encoding" 5) ;;
  Some (mkGitHubFile sha node_id size url content encoding).

(** The request of [clone_contract] (lines 140-148) and of
    [get_contracts_urls] (lines 157-165): the token is read
    ([env::var(..).unwrap()], after [dotenv] has loaded [.env]), the request
    is sent, and the body is decoded into [T] ([resp_body_json] is the body
    parsed as JSON); the status code is not looked at. *)
Definition github_get {T} (env : HttpEnv) (de : JsonValue -> option T) (url : string)
    : M (result T ReqwestError) :=
  token <- lift (match env.(github_pa_token) with
                 | Some t => Ret t
                 | None => Panic result_unwrap_msg
                 end) ;;
  emit (EvSend url) ;;;
  match send env url with
  | Err e => mret (Err (RequestFailed e))                      (* [send()?] *)
  | Ok response =>
      match response.(resp_body_json) with
      | Some json =>
          match de json with
          | Some t => mret (Ok t)
          | None => mret (Err BodyDecodeFailed)                 (* [json()?] *)
          end
      | None => mret (Err BodyDecodeFailed)                     (* [json()?] *)
      end
  end.

Definition clone_contract (env : HttpEnv) (url : string)
    : M (result GitHubFile ReqwestError) :=
  github_get env github_file_of_json url.

(** [get_contracts_urls] as a whole: the request, then the listing
    [get_contracts_urls] above of what it returns. *)
Definition get_contracts_urls_from_api (env : HttpEnv) (api_url : string)
    : M (result (list (string * string)) ReqwestError) :=
  response <- github_get env github_tree_of_json api_url ;;
  mret (get_contracts_urls response).

(* ------------------------------------------------------------------ *)
(** ** The contest listing page (lines 96-129) *)

(** A one-character string holding a double quote. *)
Definition dq : string := String "034"%char EmptyString.

(** [n] characters dropped from the front. *)
Fixpoint str_drop (n : nat) (s : string) : string :=
  match n, s with
  | O, _ => s
  | S _, EmptyString => EmptyString
  | S n', String _ s' => str_drop n' s'
  end.

Fixpoint trim_start_matches_fuel (fuel : nat) (pat s : string) : string :=
  match fuel with
  | O => s
  | S fuel' =>
      if String.prefix pat s
      then trim_start_matches_fuel fuel' pat (str_drop (String.length pat) s)
      else s
  end.

(** [str::trim_start_matches] with a string pattern: [pat] is removed
    from the front as long as it is there; an empty pattern removes
    nothing.  Each removal shortens the string, so [length s + 1] rounds
    are enough. *)
Definition trim_start_matches (pat s : string) : string :=
  if String.eqb pat EmptyString then s
  else trim_start_matches_fuel (S (String.length s)) pat s.

(** [str::trim_end_matches] with a string pattern: the same from the
    end. *)
Definition trim_end_matches (pat s : string) : string :=
  string_rev (trim_start_matches (string_rev pat) (string_rev s)).

(** The [.replace] of line 107: scanning from the left, each backslash
    followed by a double quote becomes a double quote. *)
Fixpoint unescape_quotes (s : string) : string :=
  match s with
  | EmptyString => EmptyString
  | String a s' =>
      match s' with
      | EmptyString => String a EmptyString
      | String b s'' =>
          if Ascii.eqb a "\"%char && Ascii.eqb b "034"%char
          then String "034"%char (unescape_quotes s'')
          else String a (unescape_quotes s')
      end
  end.

(** The patterns of lines 104-106. *)
Definition push_call : string := "self.__next_f.push".
Definition payload_start : string := "([1," ++ dq ++ "f:".
Definition payload_prefix : string :=
  "([1," ++ dq ++ "f:[\" ++ dq ++ "$\" ++ dq ++ ",\" ++ dq ++ "div\" ++ dq ++ ",null,".
Definition payload_suffix : string := "]\n" ++ dq ++ "])".

(** The body of the loop at lines 103-109 for one script: the JSON text
    it assigns to [cleaned_json], or [None] when it assigns nothing. *)
Definition script_payload (html : string) : option string :=
  let contest_blob := trim_start_matches push_call html in
  if String.prefix payload_start contest_blob then
    let json_blob := trim_end_matches payload_suffix
                       (trim_start_matches payload_prefix contest_blob) in
    Some (unescape_quotes json_blob)
  else None.

(** The loop at lines 103-109. *)
Fixpoint scan_scripts (cleaned_json : string) (script_tags : list string) : string :=
  match script_tags with
  | [] => cleaned_json
  | html :: rest =>
      scan_scripts (match script_payload html with
                    | Some json_blob => json_blob
                    | None => cleaned_json
                    end) rest
  end.

(** [value[key]] on a [serde_json::Value]: [Null] unless [value] is an
    object with that key. *)
Definition json_index_key (v : JsonValue) (key : string) : JsonValue :=
  match json_get v key with Some x => x | None => JNull end.

(** [value[i]]: [Null] unless [value] is an array with that index. *)
Definition json_index_nth (v : JsonValue) (i : nat) : JsonValue :=
  match v with
  | JArray items => match nth_error items i with Some x => x | None => JNull end
  | _ => JNull
  end.

(** [Value::as_array]. *)
Definition json_as_array (v : JsonValue) : option (list JsonValue) :=
  match v with JArray items => Some items | _ => None end.

(** [parsed_data["children"][3]["children"][3]["contests"]]. *)
Definition contests_value (parsed_data : JsonValue) : JsonValue :=
  json_index_key
    (json_index_nth (json_index_key (json_index_nth (json_index_key parsed_data "children") 3)
                                    "children") 3) "contests".

Definition sponsor_data_of_json (v : JsonValue) : option SponsorData :=
  ' get <-? struct_fields v 7 ;;
  ' created_at <-? de_option de_string (get "created_at" 0) ;;
  ' image <-? de_option de_string (get "image" 1) ;;
  ' imageUrl <-? de_option de_string (get "imageUrl" 2) ;;
  ' link <-? de_option de_string (get "link" 3) ;;
  ' name <-? de_option de_string (get "name" 4) ;;
  ' uid <-? de_option de_string (get "uid" 5) ;;
  ' updated_at <-? de_option de_string (get "updated_at" 6) ;;
  Some (mkSponsorData created_at image imageUrl link name uid updated_at).

(** [serde_json::from_value::<Contest>(..).ok()] (line 119). *)
Definition contest_of_json (v : JsonValue) : option Contest :=
  ' get <-? struct_fields v 27 ;;
  ' amount <-? de_option de_string (get "amount" 0) ;;
  ' audit_type <-? de_option de_string (get "audit_type" 1) ;;
  ' award_coin <-? de_option de_string (get "award_coin" 2) ;;
  ' codeAccess <-? de_option de_string (get "codeAccess" 3) ;;
  ' code_access <-? de_option de_string (get "code_access" 4) ;;
  ' contest_id <-? de_option (de_uint 32) (get "contest_id" 5) ;;
  ' contestid <-? de_option (de_uint 32) (get "contestid" 6) ;;
  ' details <-? de_option de_string (get "details" 7) ;;
  ' end_time <-? de_option de_string (get "end_time" 8) ;;
  ' findingsRepo <-? de_option de_string (get "findingsRepo" 9) ;;
  ' findings_repo <-? de_option de_string (get "findings_repo" 10) ;;
  ' formatted_amount <-? de_option de_string (get "formatted_amount" 11) ;;
  ' gas_award_pool <-? de_option (de_uint 32) (get "gas_award_pool" 12) ;;
  ' hide <-? de_option de_bool (get "hide" 13) ;;
  ' hm_award_pool <-? de_option (de_uint 32) (get "hm_award_pool" 14) ;;
  ' league <-? de_option de_string (get "league" 15) ;;
  ' qa_award_pool <-? de_option (de_uint 32) (get "qa_award_pool" 16) ;;
  ' repo <-? de_option de_string (get "repo" 17) ;;
  ' slug <-? de_option de_string (get "slug" 18) ;;
  ' sponsor <-? de_option de_string (get "sponsor" 19) ;;
  ' sponsor_data <-? de_required sponsor_data_of_json (get "sponsor_data" 20) ;;
  ' start_time <-? de_option de_string (get "start_time" 21) ;;
  ' status <-? de_option de_string (get "status" 22) ;;
  ' title <-? de_option de_string (get "title" 23) ;;
  ' total_award_pool <-? de_option (de_uint 64) (get "total_award_pool" 24) ;;
  ' contest_type <-? de_option de_string (get "type" 25) ;;
  ' uid <-? de_option de_string (get "uid" 26) ;;
  Some (mkContest amount audit_type award_coin codeAccess code_access contest_id
                  contestid details end_time findingsRepo findings_repo
                  formatted_amount gas_award_pool hide hm_award_pool league
                  qa_award_pool repo slug sponsor sponsor_data start_time status
                  title total_award_pool contest_type uid).

(** The services [get_active_contests] relies on. *)
Record ListingEnv : Type := mkListingEnv {
  get_text : string -> result string string;
    (* [reqwest::blocking::get(url)] then [.text()] *)
  script_inner_htmls : string -> list string;
    (* [Html::parse_document], [select("script")], [inner_html()], in
       document order *)
  json_from_str : string -> result JsonValue string
    (* [serde_json::from_str::<Value>], with the error's message *)
}.

Definition json_error_msg (err : string) : string := "Error parsing JSON: " ++ err.

(** [get_active_contests].  Decoding and filtering are interleaved by the
    lazy iterator in Rust; decoding has no effect, so the filter below
    sees the decoded records in order and reads the clock once for each
    (readings [0], [1], ... of this call). *)
Definition get_active_contests (env : ListingEnv)
    (parse_from_rfc3339 : string -> option Z) (clock : nat -> Z) (url : string)
    : M (list Contest) :=
  response <- lift (match get_text env url with
                    | Ok text => Ret text
                    | Err _ => Panic result_unwrap_msg
                    end) ;;
  let script_tags := script_inner_htmls env response in
  let cleaned_json := scan_scripts EmptyString script_tags in
  match json_from_str env cleaned_json with
  | Ok parsed_data =>
      items <- lift (unwrap (json_as_array (contests_value parsed_data))) ;;
      lift (filter_active_and_public parse_from_rfc3339 clock 0
              (filter_map contest_of_json items))
  | Err err => emit (EvPrint (json_error_msg err)) ;;; mret []
  end.

(* ------------------------------------------------------------------ *)
(** ** Single-file compilation (lines 219-235) *)

(** The services [compile_contract_from_source] relies on:
    [CompilerInput::with_sources] (one input per source language) and
    [Solc::compile_exact] with the [contracts] of its output. *)
Record SolcService : Type := mkSolcService {
  with_sources : list (string * string) -> list CompilerInput;
  compile_exact : CompilerInput -> result Contracts string
}.

Definition compile_contract_from_source (sc : SolcService)
    (filename source_code : string) : Outcome (result Contracts string) :=
  let sources := [(filename, source_code)] in
  let input := with_sources sc sources in
  match index 0 input with
  | Panic m => Panic m
  | Ret input0 =>
      match compile_exact sc input0 with
      | Ok output => Ret (Ok output)
      | Err _ => Panic result_unwrap_msg
      end
  end.

(* ------------------------------------------------------------------ *)
(** ** The program (lines 319-366) *)

Definition contests_url : string := "https://code4rena.com/contests".

(** [main]: the listing, then the loop over the contests it returns. *)
Definition main (env : ListingEnv) (parse_from_rfc3339 : string -> option Z)
    (clock : nat -> Z) (w : World) : M unit :=
  contests <- get_active_contests env parse_from_rfc3339 clock contests_url ;;
  main_loop w contests.

(* ------------------------------------------------------------------ *)
(** ** Definitions that follow the specification's words

    These restate what the specification says, to be compared with the
    definitions above that follow the source. *)

(** A record whose end time is present and parses and whose accessibility
    flag is present. *)
Definition well_formed (parse_from_rfc3339 : string -> option Z) (c : Contest) : Prop :=
  exists s e a, c.(end_time) = Some s /\ parse_from_rfc3339 s = Some e
                /\ c.(code_access) = Some a.

(** Specification: eligible at instant [now] iff the end time is strictly
    after [now] and the flag is ["public"]. *)
Definition eligible_spec (parse_from_rfc3339 : string -> option Z) (now : Z)
    (c : Contest) : bool :=
  match c.(end_time), c.(code_access) with
  | Some s, Some a =>
      match parse_from_rfc3339 s with
      | Some e => Z.ltb now e && String.eqb a "public"
      | None => false
      end
  | _, _ => false
  end.

(** Specification: the concrete bytecode of a contract, if it has one. *)
Definition linked_bytes (c : Contract) : option (list Byte.byte) :=
  match c.(evm) with
  | Some e =>
      match e.(bytecode) with
      | Some {| object := Bytecode bs |} => Some bs
      | _ => None
      end
  | None => None
  end.

(** Specification: [seg] is the last path segment of [p]: [p] ends with
    [seg], [seg] has no separator, and what precedes it is empty or ends
    with a separator. *)
Definition last_path_segment (seg p : string) : Prop :=
  exists dir, p = dir ++ seg
              /\ ~ In "/"%char (list_ascii_of_string seg)
              /\ (dir = EmptyString \/ exists d, dir = d ++ "/").

Fixpoint count_char (c : ascii) (s : string) : nat :=
  match s with
  | EmptyString => 0
  | String a s' => (if Ascii.eqb a c then 1 else 0) + count_char c s'
  end.

Fixpoint before_first (c : ascii) (s : string) : string :=
  match s with
  | EmptyString => EmptyString
  | String a s' => if Ascii.eqb a c then EmptyString else String a (before_first c s')
  end.

Fixpoint after_first (c : ascii) (s : string) : string :=
  match s with
  | EmptyString => EmptyString
  | String a s' => if Ascii.eqb a c then s' else after_first c s'
  end.

(** Specification: the [(name, hex)] pairs of the contracts with a
    concrete bytecode, in iteration order. *)
Definition linked_pairs (file_contracts : FileContracts) : list (string * string) :=
  flat_map (fun entry =>
              match linked_bytes (snd entry) with
              | Some bs => [(fst entry, hex_encode bs)]
              | None => []
              end) file_contracts.

(** An order-preserving sublist. *)
Inductive subseq {A : Type} : list A -> list A -> Prop :=
| subseq_nil : subseq [] []
| subseq_take (x : A) (l1 l2 : list A) : subseq l1 l2 -> subseq (x :: l1) (x :: l2)
| subseq_skip (x : A) (l1 l2 : list A) : subseq l1 l2 -> subseq l1 (x :: l2).

(** What a JavaScript string literal does to a text without backslashes:
    a backslash before each double quote. *)
Fixpoint escape_quotes (s : string) : string :=
  match s with
  | EmptyString => EmptyString
  | String a s' =>
      if Ascii.eqb a "034"%char then String "\"%char (String a (escape_quotes s'))
      else String a (escape_quotes s')
  end.

(** The value of a lowercase hex digit. *)
Definition hex_val (a : ascii) : option N :=
  let n := N_of_ascii a in
  if (48 <=? n)%N && (n <=? 57)%N then Some (n - 48)%N
  else if (97 <=? n)%N && (n <=? 102)%N then Some (n - 87)%N
  else None.

(** Decoding of lowercase hex text, two digits per byte. *)
Fixpoint hex_decode (s : string) : option (list Byte.byte) :=
  match s with
  | EmptyString => Some []
  | String _ EmptyString => None
  | String hi (String lo rest) =>
      ' h <-? hex_val hi ;;
      ' l <-? hex_val lo ;;
      ' b <-? Byte.of_N (h * 16 + l)%N ;;
      ' bs <-? hex_decode rest ;;
      Some (b :: bs)
  end.

(** The JSON keys of [Contest]. *)
Definition contest_fields : list string :=
  ["amount"; "audit_type"; "award_coin"; "codeAccess"; "code_access";
   "contest_id"; "contestid"; "details"; "end_time"; "findingsRepo";
   "findings_repo"; "formatted_amount"; "gas_award_pool"; "hide";
   "hm_award_pool"; "league"; "qa_award_pool"; "repo"; "slug"; "sponsor";
   "sponsor_data"; "start_time"; "status"; "title"; "total_award_pool";
   "type"; "uid"].

(* ------------------------------------------------------------------ *)
(** ** Concrete inputs *)

Definition no_sponsor : SponsorData :=
  mkSponsorData None None None None None None None.

(** A contest record with the given end time, [code_access] and [repo],
    every other field absent. *)
Definition contest_with (end_t access repo_url : option string) : Contest :=
  mkContest None None None None access None None None end_t None None None None
            None None None None repo_url None None no_sponsor None None None None
            None None.

(** 1970-01-01T00:00:10Z in nanoseconds. *)
Definition ten_s : Z := 10000000000%Z.

Definition public_at_ten : Contest :=
  contest_with (Some "1970-01-01T00:00:10Z") (Some "public") None.

Definition private_at_ten : Contest :=
  contest_with (Some "1970-01-01T00:00:10Z") (Some "private") None.
(** A compiler artifact map with one file ["Foo.sol"] holding one
    contract [Foo] of the given bytecode object. *)
Definition foo_contracts (obj : BytecodeObject) : Contracts :=
  [("Foo.sol", [("Foo", mkContract (Some (mkEvm (Some (mkBytecode obj)))))])].

(** The tree listing [["a.sol" (blob), "b.txt" (blob), "sub" (tree)]]. *)
Definition sample_tree : GitHubTree :=
  mkGitHubTree [mkGitHubTreeEntry "a.sol" "blob" "https://api.github.com/blobs/a";
                mkGitHubTreeEntry "b.txt" "blob" "https://api.github.com/blobs/b";
                mkGitHubTreeEntry "sub" "tree" "https://api.github.com/trees/sub"].

Definition nl : string := String "010"%char EmptyString.

Definition repo_remappings : string := "/repo/remappings.txt".

(** A file system holding one file. *)
Definition one_file (file_path contents : string) : string -> option string :=
  fun p => if String.eqb p file_path then Some contents else None.

(** A contest whose repository is [https://github.com/code-423n4/x]. *)
Definition contest_x : Contest :=
  contest_with (Some "2030-01-01T00:00:00Z") (Some "public")
               (Some "https://github.com/code-423n4/x").

Definition contest_y : Contest :=
  contest_with (Some "2030-01-01T00:00:00Z") (Some "public")
               (Some "https://github.com/code-423n4/y").

(** Nothing is cloned yet, cloning panics (access denied), and the
    directory walk of [CompilerInput::new] finds no source file. *)
Definition world_clone_panics : World :=
  mkWorld (fun _ => None) (fun _ => false)
          (fun _ _ => Panic "authentication required")
          (fun _ => Ok []) (fun _ => Err "no input").

(** The repository is already cloned, reading its sources fails, and it
    has no remapping file. *)
Definition world_unreadable_sources : World :=
  mkWorld (fun _ => None) (fun _ => true)
          (fun _ _ => Ret (Ok tt))
          (fun _ => Err "Permission denied (os error 13)") (fun _ => Err "no input").

(** The token is set and the API answers 200 with a body that is not
    JSON. *)
Definition env_non_json : HttpEnv :=
  mkHttpEnv (Some "token") (fun _ => Ok (mkResponse 200 None)).

(** The token is set and the API answers 200 with
    [{"default_branch": "main"}]. *)
Definition env_main : HttpEnv :=
  mkHttpEnv (Some "token")
            (fun _ => Ok (mkResponse 200 (Some (JObject [("default_branch", JString "main")])))).

(** JSON text of a value (strings without quotes, backslashes or control
    characters). *)
Fixpoint decimal_digits (fuel : nat) (n : N) (acc : string) : string :=
  match fuel with
  | O => acc
  | S fuel' =>
      let acc := String (ascii_of_N (48 + N.modulo n 10)) acc in
      if (n <? 10)%N then acc else decimal_digits fuel' (N.div n 10) acc
  end.

Definition z_text (n : Z) : string :=
  (if (n <? 0)%Z then "-" else EmptyString)
  ++ decimal_digits (S (N.to_nat (N.size (Z.abs_N n)))) (Z.abs_N n) EmptyString.

Fixpoint json_text (v : JsonValue) : string :=
  match v with
  | JNull => "null"
  | JBool b => if b then "true" else "false"
  | JNumber n => z_text n
  | JString s => dq ++ s ++ dq
  | JArray items => "[" ++ String.concat "," (map json_text items) ++ "]"
  | JObject fields =>
      "{" ++ String.concat ","
               (map (fun '(k, x) => dq ++ k ++ dq ++ ":" ++ json_text x) fields)
      ++ "}"
  end.

(** The listing entry of [contest_x]. *)
Definition contest_x_json : JsonValue :=
  JObject [("end_time", JString "2030-01-01T00:00:00Z");
           ("code_access", JString "public");
           ("repo", JString "https://github.com/code-423n4/x");
           ("sponsor_data", JObject [])].

(** A listing with [contest_x], an entry without [sponsor_data] and an
    entry that is not an object. *)
Definition listing_value : JsonValue :=
  JObject [("children", JArray [JNull; JNull; JNull;
    JObject [("children", JArray [JNull; JNull; JNull;
      JObject [("contests", JArray [contest_x_json;
                                    JObject [("end_time", JString "2030-01-01T00:00:00Z")];
                                    JString "x"])]])]])].

Definition listing_script : string :=
  push_call ++ payload_prefix ++ escape_quotes (json_text listing_value) ++ payload_suffix.

(** A page with an unrelated script followed by the payload script; the
    JSON parser knows the listing text. *)
Definition listing_env : ListingEnv :=
  mkListingEnv (fun _ => Ok "<html></html>")
               (fun _ => ["console.log(1)"; listing_script])
               (fun s => if String.eqb s (json_text listing_value) then Ok listing_value
                         else Err "expected value at line 1 column 1").

(** A page without a payload script. *)
Definition listing_env_no_payload : ListingEnv :=
  mkListingEnv (fun _ => Ok "<html></html>")
               (fun _ => ["console.log(1)"])
               (fun s => if String.eqb s (json_text listing_value) then Ok listing_value
                         else Err "EOF while parsing a value at line 1 column 0").

Definition env_no_token : HttpEnv :=
  mkHttpEnv None (fun _ => Err "connection refused").

(** The API answers 404 with a body that is a tree listing one blob. *)
Definition tree_404 : Response :=
  mkResponse 404 (Some (JObject [("tree", JArray [JObject [
                   ("path", JString "src/A.sol"); ("type", JString "blob");
                   ("url", JString "https://api.github.com/blobs/a")]])])).

Definition env_tree_404 : HttpEnv := mkHttpEnv (Some "token") (fun _ => Ok tree_404).

Definition env_tree_200 : HttpEnv :=
  mkHttpEnv (Some "token") (fun _ => Ok (mkResponse 200 (resp_body_json tree_404))).

Definition env_unreachable : HttpEnv :=
  mkHttpEnv (Some "token") (fun _ => Err "dns error").

(** Nothing is cloned yet and cloning returns an error. *)
Definition world_clone_fails : World :=
  mkWorld (fun _ => None) (fun _ => false)
          (fun _ _ => Ret (Err "repository not found"))
          (fun _ => Err "no input") (fun _ => Err "no input").

(** A compiler that accepts every input. *)
Definition solc_ok : SolcService :=
  mkSolcService (fun srcs => [mkCompilerInput (map fst srcs) (mkSettings false [])])
                (fun _ => Ok (foo_contracts (Bytecode [Byte.x60; Byte.x80]))).


(** The listing page cannot be fetched. *)
Definition listing_env_unreachable : ListingEnv :=
  mkListingEnv (fun _ => Err "error sending request for url")
               (fun _ => [])
               (fun _ => Err "EOF while parsing a value at line 1 column 0").

Example rfc3339_subset_epoch :
  rfc3339_subset "1970-01-01T00:00:00Z" = Some 0%Z.
Proof. vm_compute. reflexivity. Qed.

Example rfc3339_subset_offset :
  rfc3339_subset "2023-06-01T12:00:00+02:00"
  = rfc3339_subset "2023-06-01T10:00:00Z".
Proof. vm_compute. reflexivity. Qed.


(* ================================================================== *)
(** * Properties *)

(* ------------------------------------------------------------------ *)
(** ** Eligibility filter *)

Section Eligibility.

Variable parse_from_rfc3339 : string -> option Z.

Lemma is_active_and_public_well_formed (now : Z) (c : Contest) s e a :
  c.(end_time) = Some s -> parse_from_rfc3339 s = Some e ->
  c.(code_access) = Some a ->
  is_active_and_public parse_from_rfc3339 now c
  = Ret (Ok (Z.ltb now e && String.eqb a "public")).
Proof.
  intros Hs He Ha. unfold is_active_and_public.
  rewrite Hs, He. destruct (Z.ltb now e); [rewrite Ha|]; reflexivity.
Qed.

Lemma eligible_spec_well_formed (now : Z) (c : Contest) s e a :
  c.(end_time) = Some s -> parse_from_rfc3339 s = Some e ->
  c.(code_access) = Some a ->
  eligible_spec parse_from_rfc3339 now c = Z.ltb now e && String.eqb a "public".
Proof.
  intros Hs He Ha. unfold eligible_spec. rewrite Hs, Ha, He. reflexivity.
Qed.

End Eligibility.

(** C1: on well-formed records, the filter keeps exactly the records
    whose end time is strictly after the clock reading taken for them and
    whose [code_access] is ["public"], in order; for a single well-formed
    record, an end time not after [now] excludes it whatever its flag, and
    an end time after [now] includes it exactly when the flag is
    ["public"]. *)
Theorem filter_active_and_public_spec (parse_from_rfc3339 : string -> option Z) :
  (forall (clock : nat -> Z) (k : nat) (cs : list Contest),
      Forall (well_formed parse_from_rfc3339) cs ->
      filter_active_and_public parse_from_rfc3339 clock k cs
      = Ret (map fst (filter (fun p => eligible_spec parse_from_rfc3339
                                                    (clock (snd p)) (fst p))
                             (combine cs (seq k (length cs))))))
  /\ (forall (now : Z) (c : Contest) s e a,
      c.(end_time) = Some s -> parse_from_rfc3339 s = Some e ->
      c.(code_access) = Some a ->
      ((e <= now)%Z ->
         filter_active_and_public parse_from_rfc3339 (fun _ => now) 0 [c] = Ret [])
      /\ ((now < e)%Z ->
         (filter_active_and_public parse_from_rfc3339 (fun _ => now) 0 [c] = Ret [c]
          <-> a = "public"))).
Proof.
  split.
  - intros clock k cs. revert k.
    induction cs as [|c cs IH]; intros k Hwf; [reflexivity|].
    inversion Hwf as [|? ? Hc Hcs]; subst.
    destruct Hc as (s & e & a & Hs & He & Ha).
    simpl. rewrite (is_active_and_public_well_formed _ _ _ _ _ _ Hs He Ha).
    rewrite (IH (S k) Hcs). simpl.
    rewrite (eligible_spec_well_formed _ _ _ _ _ _ Hs He Ha).
    destruct (Z.ltb (clock k) e && String.eqb a "public"); reflexivity.
  - intros now c s e a Hs He Ha. simpl.
    rewrite (is_active_and_public_well_formed _ _ _ _ _ _ Hs He Ha). split.
    + intros Hle. replace (Z.ltb now e) with false by lia. reflexivity.
    + intros Hlt. replace (Z.ltb now e) with true by lia. simpl.
      destruct (String.eqb_spec a "public") as [Hp|Hp]; split; intro H;
        try congruence; try reflexivity.
Qed.

Lemma rfc3339_subset_ten : rfc3339_subset "1970-01-01T00:00:10Z" = Some ten_s.
Proof. vm_compute. reflexivity. Qed.

Lemma public_at_ten_well_formed : well_formed rfc3339_subset public_at_ten.
Proof.
  exists "1970-01-01T00:00:10Z", ten_s, "public".
  split; [reflexivity | split; [exact rfc3339_subset_ten | reflexivity]].
Qed.

Lemma private_at_ten_well_formed : well_formed rfc3339_subset private_at_ten.
Proof.
  exists "1970-01-01T00:00:10Z", ten_s, "private".
  split; [reflexivity | split; [exact rfc3339_subset_ten | reflexivity]].
Qed.

Lemma filter_active_and_public_spec_witness :
  Forall (well_formed rfc3339_subset) [public_at_ten; private_at_ten]
  /\ filter_active_and_public rfc3339_subset (fun _ => 9000000000%Z) 0
       [public_at_ten; private_at_ten] = Ret [public_at_ten]
  /\ filter_active_and_public rfc3339_subset (fun _ => 11000000000%Z) 0
       [public_at_ten] = Ret [].
Proof.
  assert (Hwf : Forall (well_formed rfc3339_subset) [public_at_ten; private_at_ten]).
  { repeat constructor; [exact public_at_ten_well_formed
                        | exact private_at_ten_well_formed]. }
  split; [exact Hwf | split].
  - rewrite (proj1 (filter_active_and_public_spec rfc3339_subset) _ 0 _ Hwf).
    vm_compute. reflexivity.
  - apply (proj1 (proj2 (filter_active_and_public_spec rfc3339_subset)
             11000000000%Z public_at_ten "1970-01-01T00:00:10Z" ten_s "public"
             eq_refl rfc3339_subset_ten eq_refl)).
    unfold ten_s. lia.
Defined.

(** C3 (defect): a record without an end time makes the filter panic at
    [contest.end_time.as_ref().unwrap()]; the panic ends the whole pass
    instead of dropping the record. *)
Theorem filter_missing_end_time_panics (parse_from_rfc3339 : string -> option Z)
    (clock : nat -> Z) (k : nat) (c : Contest) (rest : list Contest) :
  c.(end_time) = None ->
  filter_active_and_public parse_from_rfc3339 clock k (c :: rest) = Panic unwrap_msg.
Proof.
  intros Hnone. simpl. unfold is_active_and_public. rewrite Hnone. reflexivity.
Qed.

Lemma filter_missing_end_time_panics_witness :
  (contest_with None (Some "public") None).(end_time) = None
  /\ filter_active_and_public rfc3339_subset (fun _ => 0%Z) 0
       [contest_with None (Some "public") None; public_at_ten] = Panic unwrap_msg.
Proof.
  split; [reflexivity|].
  apply filter_missing_end_time_panics. reflexivity.
Defined.

(** C9 (counterexample): the clock is read once per record, not once per
    pass: with the readings 9 s then 10 s, two copies of a public record
    ending at 10 s are split (the first kept, the second dropped), an
    output that no single clock reading produces. *)
Lemma filter_reads_clock_per_record :
  ~ exists now : Z,
      filter_active_and_public rfc3339_subset
        (fun i => if Nat.eqb i 0 then 9000000000%Z else ten_s) 0
        [public_at_ten; public_at_ten]
      = filter_active_and_public rfc3339_subset (fun _ => now) 0
          [public_at_ten; public_at_ten].
Proof.
  intros [now H]. cbn [filter_active_and_public Nat.eqb] in H.
  rewrite !(is_active_and_public_well_formed rfc3339_subset _ public_at_ten
              "1970-01-01T00:00:10Z" ten_s "public" eq_refl rfc3339_subset_ten eq_refl)
    in H.
  destruct (Z.ltb now ten_s); vm_compute in H; discriminate H.
Qed.

(** C9 (amended): [is_active_and_public] reads the clock first, once per
    record, in order.  The filter with [Utc::now()] as an effect has the
    outcome of [filter_active_and_public], where the record at position
    [i] is judged against reading [n + i]; a pass that completes has read
    the clock exactly once per record; and two runs over the same records
    whose readings agree produce the same result. *)
Theorem filter_reads_clock_once_per_record (parse_from_rfc3339 : string -> option Z)
    (clock : nat -> Z) (n : nat) (cs : list Contest) :
  snd (filter_active_and_public_clocked parse_from_rfc3339 clock cs n)
    = filter_active_and_public parse_from_rfc3339 clock n cs
  /\ (forall out,
        snd (filter_active_and_public_clocked parse_from_rfc3339 clock cs n) = Ret out ->
        fst (filter_active_and_public_clocked parse_from_rfc3339 clock cs n)
        = (n + length cs)%nat)
  /\ (forall clock2 : nat -> Z,
        (forall i, (i < length cs)%nat -> clock2 (n + i)%nat = clock (n + i)%nat) ->
        filter_active_and_public_clocked parse_from_rfc3339 clock2 cs n
        = filter_active_and_public_clocked parse_from_rfc3339 clock cs n).
Proof.
  revert n. induction cs as [|c cs IH]; intros n.
  - split; [reflexivity|]. split; [intros out _; simpl; lia | intros; reflexivity].
  - destruct (IH (S n)) as (Hsnd & Hcnt & Hdet).
    cbn [filter_active_and_public_clocked filter_active_and_public length].
    cbv [cbind cret clift is_active_and_public_clocked utc_now].
    split; [|split].
    + destruct (is_active_and_public parse_from_rfc3339 (clock n) c) as [r|m];
        [|reflexivity].
      destruct (filter_active_and_public_clocked parse_from_rfc3339 clock cs (S n))
        as [n' [kept|m]]; cbn [snd] in Hsnd |- *; rewrite <- Hsnd; reflexivity.
    + intros out.
      destruct (is_active_and_public parse_from_rfc3339 (clock n) c) as [r|m];
        [|discriminate].
      destruct (filter_active_and_public_clocked parse_from_rfc3339 clock cs (S n))
        as [n' [kept|m]] eqn:E; cbn [fst snd]; [|discriminate].
      intros _. specialize (Hcnt kept). cbn [fst snd] in Hcnt.
      rewrite Hcnt by reflexivity. lia.
    + intros clock2 Hclk.
      assert (H0 : clock2 n = clock n).
      { specialize (Hclk 0%nat). rewrite Nat.add_0_r in Hclk. apply Hclk. simpl. lia. }
      rewrite H0, Hdet; [reflexivity|].
      intros i Hi. replace (S n + i)%nat with (n + S i)%nat by lia.
      apply Hclk. simpl. lia.
Qed.

Lemma filter_reads_clock_once_per_record_witness :
  fst (filter_active_and_public_clocked rfc3339_subset
         (fun i => if Nat.eqb i 0 then 9000000000%Z else ten_s)
         [public_at_ten; public_at_ten] 0) = 2%nat
  /\ filter_active_and_public_clocked rfc3339_subset
       (fun i => if Nat.ltb i 2 then (if Nat.eqb i 0 then 9000000000%Z else ten_s) else 0%Z)
       [public_at_ten; public_at_ten] 0
     = filter_active_and_public_clocked rfc3339_subset
         (fun i => if Nat.eqb i 0 then 9000000000%Z else ten_s)
         [public_at_ten; public_at_ten] 0.
Proof.
  destruct (filter_reads_clock_once_per_record rfc3339_subset
              (fun i => if Nat.eqb i 0 then 9000000000%Z else ten_s) 0
              [public_at_ten; public_at_ten]) as (Hsnd & Hcnt & Hdet).
  split.
  - apply (Hcnt [public_at_ten]). rewrite Hsnd. vm_compute. reflexivity.
  - apply Hdet. intros i Hi. destruct i as [|[|i]]; [reflexivity | reflexivity | simpl in Hi; lia].
Defined.

(* ------------------------------------------------------------------ *)
(** ** Bytecode extraction *)

Lemma filter_map_contract_bytecode (file_contracts : FileContracts) :
  filter_map contract_bytecode file_contracts = linked_pairs file_contracts.
Proof.
  induction file_contracts as [|[contract_name contract] rest IH]; [reflexivity|].
  simpl. rewrite IH. unfold contract_bytecode, linked_bytes.
  destruct (evm contract) as [[[[[bs|ph]]|]]|]; reflexivity.
Qed.

(** C2: bytecode extraction returns the [(name, hex)] pairs of exactly
    the contracts of the file that have a concrete bytecode, in order, and
    [None] (no error) when there is none; on a map with one contract [Foo]
    of bytecode [0xdeadbeef] it returns [[("Foo", "deadbeef")]], and
    [None] when [Foo]'s bytecode is an unlinked placeholder. *)
Theorem get_contracts_bytecodes_spec :
  (forall (contracts : Contracts) (filename : string),
      let pairs := linked_pairs (match map_get filename contracts with
                                 | Some file_contracts => file_contracts
                                 | None => []
                                 end) in
      get_contracts_bytecodes contracts filename
      = match pairs with [] => None | _ => Some pairs end)
  /\ get_contracts_bytecodes
       (foo_contracts (Bytecode [Byte.xde; Byte.xad; Byte.xbe; Byte.xef])) "Foo.sol"
     = Some [("Foo", "deadbeef")]
  /\ get_contracts_bytecodes
       (foo_contracts (Unlinked "__$placeholder$__")) "Foo.sol" = None.
Proof.
  split; [|split; reflexivity].
  intros contracts filename. unfold get_contracts_bytecodes.
  destruct (map_get filename contracts) as [file_contracts|]; [|reflexivity].
  rewrite filter_map_contract_bytecode. reflexivity.
Qed.

(* ------------------------------------------------------------------ *)
(** ** Strings and paths *)

Lemma string_of_list_ascii_app (l1 l2 : list ascii) :
  string_of_list_ascii (l1 ++ l2)%list = string_of_list_ascii l1 ++ string_of_list_ascii l2.
Proof. induction l1 as [|a l1 IH]; simpl; [reflexivity | now rewrite IH]. Qed.

Lemma string_of_list_ascii_length (l : list ascii) :
  String.length (string_of_list_ascii l) = List.length l.
Proof. induction l as [|a l IH]; simpl; [reflexivity | now rewrite IH]. Qed.

Lemma prefix_app (s1 s2 : string) :
  String.prefix s1 s2 = true -> exists r, s2 = s1 ++ r.
Proof.
  revert s2. induction s1 as [|a s1 IH]; intros s2 H.
  - exists s2. reflexivity.
  - destruct s2 as [|b s2]; simpl in H; [discriminate|].
    destruct (ascii_dec a b) as [<-|]; [|discriminate].
    destruct (IH s2 H) as [r ->]. exists r. reflexivity.
Qed.

Lemma take_drop_while {A} (p : A -> bool) (l : list A) :
  (take_while p l ++ drop_while p l)%list = l.
Proof.
  induction l as [|x l IH]; simpl; [reflexivity|].
  destruct (p x); simpl; [now rewrite IH | reflexivity].
Qed.

Lemma take_while_all {A} (p : A -> bool) (l : list A) :
  Forall (fun x => p x = true) (take_while p l).
Proof.
  induction l as [|x l IH]; simpl; [constructor|].
  destruct (p x) eqn:Hx; constructor; assumption.
Qed.

Lemma drop_while_stops {A} (p : A -> bool) (l : list A) x rest :
  drop_while p l = x :: rest -> p x = false.
Proof.
  induction l as [|y l IH]; simpl; [discriminate|].
  destruct (p y) eqn:Hy; [exact IH|]. intros [= <- _]. exact Hy.
Qed.

(** A path ending in [".sol"] has a file name: its last segment. *)
Lemma path_file_name_sol (p : string) :
  ends_with ".sol" p = true ->
  exists seg, path_file_name p = Some seg /\ last_path_segment seg p.
Proof.
  unfold ends_with, path_file_name, string_rev. intros H.
  change (string_of_list_ascii (rev (list_ascii_of_string ".sol"))) with "los." in H.
  apply prefix_app in H. destruct H as [r Hr].
  assert (HR : rev (list_ascii_of_string p)
               = "l"%char :: "o"%char :: "s"%char :: "."%char :: list_ascii_of_string r).
  { rewrite <- (list_ascii_of_string_of_list_ascii (rev (list_ascii_of_string p))).
    rewrite Hr. reflexivity. }
  assert (Hd : drop_while is_slash (rev (list_ascii_of_string p))
               = rev (list_ascii_of_string p)) by (rewrite HR; reflexivity).
  rewrite Hd. cbv zeta.
  set (R := rev (list_ascii_of_string p)).
  set (T := take_while (fun a => negb (is_slash a)) R).
  set (D := drop_while (fun a => negb (is_slash a)) R).
  assert (HT : (4 <= List.length T)%nat).
  { unfold T, R. rewrite HR. simpl. lia. }
  assert (Hne : String.eqb (string_of_list_ascii (rev T)) EmptyString
                || String.eqb (string_of_list_ascii (rev T)) ".." = false).
  { destruct (String.eqb_spec (string_of_list_ascii (rev T)) EmptyString) as [E|_].
    { apply (f_equal String.length) in E.
      rewrite string_of_list_ascii_length, length_rev in E. simpl in E. lia. }
    destruct (String.eqb_spec (string_of_list_ascii (rev T)) "..") as [E|_];
      [|reflexivity].
    apply (f_equal String.length) in E.
    rewrite string_of_list_ascii_length, length_rev in E. simpl in E. lia. }
  rewrite Hne. eexists. split; [reflexivity|].
  exists (string_of_list_ascii (rev D)). split; [|split].
  - rewrite <- string_of_list_ascii_app, <- rev_app_distr.
    unfold T, D. rewrite take_drop_while. unfold R. rewrite rev_involutive.
    symmetry. apply string_of_list_ascii_of_string.
  - rewrite list_ascii_of_string_of_list_ascii. intros Hin.
    apply in_rev in Hin.
    pose proof (take_while_all (fun a => negb (is_slash a)) R) as Hall.
    rewrite Forall_forall in Hall. specialize (Hall _ Hin). discriminate Hall.
  - destruct D as [|x D'] eqn:HD; [left; reflexivity|right].
    pose proof (drop_while_stops _ _ _ _ HD) as Hx.
    apply negb_false_iff in Hx. unfold is_slash in Hx.
    apply Ascii.eqb_eq in Hx. subst x.
    exists (string_of_list_ascii (rev D')). simpl.
    rewrite string_of_list_ascii_app. reflexivity.
Qed.

(* ------------------------------------------------------------------ *)
(** ** Tree listing *)

(** C7: the listing keeps exactly the [blob] entries whose path ends with
    [".sol"], in order and one output per entry (no deduplication), each
    mapped to its URL and the last segment of its path; the sample tree
    gives the single result for ["a.sol"]. *)
Theorem get_contracts_urls_spec :
  (forall (E : Type) (entries : list GitHubTreeEntry),
      exists out,
        get_contracts_urls (E := E) (Ok (mkGitHubTree entries)) = Ok out
        /\ Forall2 (fun e o => fst o = e.(entry_url)
                               /\ last_path_segment (snd o) e.(entry_path))
                   (filter (fun e => String.eqb e.(entry_type) "blob"
                                     && ends_with ".sol" e.(entry_path)) entries)
                   out)
  /\ get_contracts_urls (E := unit) (Ok sample_tree)
     = Ok [("https://api.github.com/blobs/a", "a.sol")].
Proof.
  split; [|reflexivity].
  intros E entries. eexists. split; [reflexivity|]. simpl.
  induction entries as [|e entries IH]; simpl; [constructor|].
  unfold is_sol_blob at 1.
  destruct (String.eqb (entry_type e) "blob" && ends_with ".sol" (entry_path e))
    eqn:Hsel; [|exact IH].
  constructor; [|exact IH].
  apply andb_true_iff in Hsel. destruct Hsel as [_ Hsol].
  destruct (path_file_name_sol _ Hsol) as [seg [Hseg Hlast]].
  unfold url_and_filename. rewrite Hseg. split; [reflexivity | exact Hlast].
Qed.

(* ------------------------------------------------------------------ *)
(** ** Remapping files *)

Lemma split_on_length (c : ascii) (s : string) :
  List.length (split_on c s) = S (count_char c s).
Proof.
  induction s as [|a s IH]; [reflexivity|]. simpl.
  destruct (Ascii.eqb a c); simpl; [now rewrite IH|].
  destruct (split_on c s) as [|h t]; simpl in *; lia.
Qed.

Lemma split_on_none (c : ascii) (s : string) :
  count_char c s = 0 -> split_on c s = [s].
Proof.
  induction s as [|a s IH]; [reflexivity|]. simpl.
  destruct (Ascii.eqb a c); simpl; [discriminate|].
  intros H. rewrite (IH H). reflexivity.
Qed.

Lemma split_on_one (c : ascii) (s : string) :
  count_char c s = 1 -> split_on c s = [before_first c s; after_first c s].
Proof.
  induction s as [|a s IH]; [discriminate|]. simpl.
  destruct (Ascii.eqb a c); simpl; intros H.
  - rewrite (split_on_none c s) by lia. reflexivity.
  - rewrite (IH H). reflexivity.
Qed.

Lemma count_char_append (c : ascii) (s1 s2 : string) :
  count_char c (s1 ++ s2) = count_char c s1 + count_char c s2.
Proof. induction s1 as [|a s1 IH]; simpl; [reflexivity | rewrite IH; lia]. Qed.

Lemma count_char_rev_list (c : ascii) (l : list ascii) :
  count_char c (string_of_list_ascii (rev l)) = count_char c (string_of_list_ascii l).
Proof.
  induction l as [|a l IH]; [reflexivity|]. simpl.
  rewrite string_of_list_ascii_app, count_char_append, IH. simpl. lia.
Qed.

Lemma count_char_string_rev (c : ascii) (s : string) :
  count_char c (string_rev s) = count_char c s.
Proof.
  unfold string_rev. rewrite count_char_rev_list, string_of_list_ascii_of_string.
  reflexivity.
Qed.

Lemma count_char_trim_start (c : ascii) (s : string) :
  is_whitespace c = false -> count_char c (trim_start s) = count_char c s.
Proof.
  intros Hc. induction s as [|a s IH]; [reflexivity|]. simpl.
  destruct (is_whitespace a) eqn:Ha; [|reflexivity].
  rewrite IH. destruct (Ascii.eqb_spec a c); [congruence | reflexivity].
Qed.

Lemma count_char_trim (c : ascii) (s : string) :
  is_whitespace c = false -> count_char c (trim s) = count_char c s.
Proof.
  intros Hc. unfold trim, trim_end.
  rewrite count_char_string_rev, count_char_trim_start, count_char_string_rev,
    count_char_trim_start by exact Hc.
  reflexivity.
Qed.

(** A line gives an entry exactly when it has one ['=']. *)
Lemma remapping_of_line_count (dir line : string) :
  remapping_of_line dir line
  = if Nat.eqb (count_char "=" line) 1
    then Some {| name := trim (before_first "=" (trim line));
                 path := dir ++ "/" ++ trim (after_first "=" (trim line)) |}
    else None.
Proof.
  unfold remapping_of_line.
  rewrite <- (count_char_trim "=" line) by reflexivity.
  destruct (Nat.eqb_spec (count_char "=" (trim line)) 1) as [H1|H1].
  - rewrite (split_on_one _ _ H1). reflexivity.
  - pose proof (split_on_length "=" (trim line)) as Hlen.
    destruct (split_on "=" (trim line)) as [|x [|y [|z rest]]];
      simpl in Hlen; try reflexivity. lia.
Qed.

Lemma read_remappings_file_count (rd : string -> option string)
    (file_path contents dir : string) :
  rd file_path = Some contents -> path_parent file_path = Some dir ->
  read_remappings_file rd file_path
  = Ret (filter_map (fun line =>
                       if Nat.eqb (count_char "=" line) 1
                       then Some {| name := trim (before_first "=" (trim line));
                                    path := dir ++ "/" ++
                                            trim (after_first "=" (trim line)) |}
                       else None) (lines contents)).
Proof.
  intros Hrd Hpar. unfold read_remappings_file. rewrite Hrd, Hpar.
  f_equal. induction (lines contents) as [|line rest IH]; [reflexivity|].
  simpl. rewrite remapping_of_line_count, IH. reflexivity.
Qed.

Lemma in_filter_map {A B} (f : A -> option B) (l : list A) (y : B) :
  In y (filter_map f l) <-> exists x, In x l /\ f x = Some y.
Proof.
  induction l as [|x l IH]; simpl.
  - split; [intros []|intros (x & [] & _)].
  - destruct (f x) as [z|] eqn:Hfx; simpl; rewrite IH; split.
    + intros [<-|(x' & Hin & Hf)]; [exists x; auto | exists x'; auto].
    + intros (x' & [<-|Hin] & Hf); [left; congruence | right; exists x'; auto].
    + intros (x' & Hin & Hf). exists x'. auto.
    + intros (x' & [<-|Hin] & Hf); [congruence | exists x'; auto].
Qed.

(** C5: every entry read from a remapping file has as path the file's
    containing directory, a ["/"], and the (trimmed) right-hand side of
    an accepted [alias=relative] line, and every accepted line gives such
    an entry; [/repo/remappings.txt] with the line
    [@openzeppelin/=lib/openzeppelin-contracts/] gives
    [{ name = "@openzeppelin/"; path = "/repo/lib/openzeppelin-contracts/" }]. *)
Theorem read_remappings_file_paths :
  (forall (rd : string -> option string) (file_path contents dir : string),
      rd file_path = Some contents -> path_parent file_path = Some dir ->
      exists rms, read_remappings_file rd file_path = Ret rms
      /\ (forall r, In r rms ->
            exists line, In line (lines contents)
              /\ count_char "=" line = 1
              /\ r.(name) = trim (before_first "=" (trim line))
              /\ r.(path) = dir ++ "/" ++ trim (after_first "=" (trim line)))
      /\ (forall line, In line (lines contents) -> count_char "=" line = 1 ->
            In {| name := trim (before_first "=" (trim line));
                  path := dir ++ "/" ++ trim (after_first "=" (trim line)) |} rms))
  /\ path_parent repo_remappings = Some "/repo"
  /\ read_remappings_file
       (one_file repo_remappings "@openzeppelin/=lib/openzeppelin-contracts/")
       repo_remappings
     = Ret [{| name := "@openzeppelin/"; path := "/repo/lib/openzeppelin-contracts/" |}].
Proof.
  split; [|split; vm_compute; reflexivity].
  intros rd file_path contents dir Hrd Hpar.
  eexists. split; [exact (read_remappings_file_count _ _ _ _ Hrd Hpar)|]. split.
  - intros r Hr. apply in_filter_map in Hr. destruct Hr as (line & Hin & Hf).
    exists line. split; [exact Hin|].
    destruct (Nat.eqb_spec (count_char "=" line) 1) as [H1|H1]; [|discriminate].
    injection Hf as <-. auto.
  - intros line Hin H1. apply in_filter_map. exists line. split; [exact Hin|].
    rewrite H1. reflexivity.
Qed.

Lemma read_remappings_file_paths_witness :
  one_file repo_remappings "@a/=lib/a/" repo_remappings = Some "@a/=lib/a/"
  /\ path_parent repo_remappings = Some "/repo"
  /\ In {| name := "@a/"; path := "/repo/lib/a/" |}
        match read_remappings_file (one_file repo_remappings "@a/=lib/a/")
                repo_remappings with
        | Ret rms => rms
        | Panic _ => []
        end.
Proof.
  assert (Hrd : one_file repo_remappings "@a/=lib/a/" repo_remappings
                = Some "@a/=lib/a/") by reflexivity.
  assert (Hpar : path_parent repo_remappings = Some "/repo") by (vm_compute; reflexivity).
  split; [exact Hrd | split; [exact Hpar|]].
  destruct (proj1 read_remappings_file_paths _ _ _ _ Hrd Hpar)
    as (rms & Hread & _ & Hall).
  rewrite Hread. apply (Hall "@a/=lib/a/"); vm_compute; auto.
Defined.

(** C6 (counterexample): [split('=')] splits at every ['='], so the line
    [a=b=c] has three parts and gives no entry, where splitting at the
    first ['='] would give the name [a] and the path ending in [b=c]. *)
Lemma read_remappings_file_two_equals :
  read_remappings_file (one_file repo_remappings "a=b=c") repo_remappings = Ret [].
Proof. vm_compute. reflexivity. Qed.

(** C6 (amended): a readable remapping file gives, in file order, one
    entry for each line with exactly one ['='] (name and path from the
    trimmed parts before and after it) and nothing for any other line; a
    line without ['='] such as [justonevalue], a blank line and a line with
    two ['='] are skipped without error. *)
Theorem read_remappings_file_lines :
  (forall (rd : string -> option string) (file_path contents dir : string),
      rd file_path = Some contents -> path_parent file_path = Some dir ->
      read_remappings_file rd file_path
      = Ret (filter_map (fun line =>
                           if Nat.eqb (count_char "=" line) 1
                           then Some {| name := trim (before_first "=" (trim line));
                                        path := dir ++ "/" ++
                                                trim (after_first "=" (trim line)) |}
                           else None) (lines contents)))
  /\ read_remappings_file
       (one_file repo_remappings
          ("justonevalue" ++ nl ++ nl ++ "x=y=z" ++ nl ++ "@a/ = lib/a/" ++ nl))
       repo_remappings
     = Ret [{| name := "@a/"; path := "/repo/lib/a/" |}].
Proof.
  split; [exact read_remappings_file_count | vm_compute; reflexivity].
Qed.

Lemma read_remappings_file_lines_witness :
  one_file repo_remappings "justonevalue" repo_remappings = Some "justonevalue"
  /\ path_parent repo_remappings = Some "/repo"
  /\ read_remappings_file (one_file repo_remappings "justonevalue") repo_remappings
     = Ret [].
Proof.
  assert (Hrd : one_file repo_remappings "justonevalue" repo_remappings
                = Some "justonevalue") by reflexivity.
  assert (Hpar : path_parent repo_remappings = Some "/repo") by (vm_compute; reflexivity).
  split; [exact Hrd | split; [exact Hpar|]].
  rewrite (proj1 read_remappings_file_lines _ _ _ _ Hrd Hpar).
  vm_compute. reflexivity.
Defined.

(* ------------------------------------------------------------------ *)
(** ** The main loop *)

Lemma compile_contracts_from_repo_first_event (w : World) (cp rp : string) :
  exists t, fst (compile_contracts_from_repo w cp rp) = EvCompile cp rp :: t.
Proof. eexists. reflexivity. Qed.

(** An iteration that gets past the clone step runs the compilation, and
    its outcome is that of the compilation. *)
Ltac finish_compile cr :=
  fold cr; clearbody cr; destruct cr as [t [a|msg]];
  cbn [mbind mret fst snd]; rewrite ?app_nil_r;
  match goal with
  | |- exists pre, ?x :: ?y :: t = _ /\ _ => exists [x; y]; split; reflexivity
  | |- _ => exists []; split; reflexivity
  end.

Lemma process_contest_compiles (w : World) (c : Contest) (url repo_name : string) :
  c.(repo) = Some url ->
  last_opt (split_on "/"%char url) = Some repo_name ->
  (metadata_is_ok w ("./clones/" ++ repo_name) = true
   \/ clone_recurse w url ("./clones/" ++ repo_name) = Ret (Ok tt)
   \/ exists m, clone_recurse w url ("./clones/" ++ repo_name) = Panic m) ->
  let cr := compile_contracts_from_repo w (("./clones/" ++ repo_name) ++ "/src")
              (("./clones/" ++ repo_name) ++ "/remappings.txt") in
  exists pre,
    fst (process_contest w c) = (pre ++ fst cr)%list
    /\ snd (process_contest w c) = match snd cr with
                                   | Ret _ => Ret tt
                                   | Panic m => Panic m
                                   end.
Proof.
  intros Hrepo Hname Hreach cr.
  unfold process_contest. rewrite Hrepo. cbn [lift unwrap mbind fst snd].
  rewrite Hname. cbn [lift unwrap mbind fst snd app].
  destruct Hreach as [Hex | [Hok | [m Hpanic]]].
  - rewrite Hex. cbn [negb mret mbind fst snd app].
    finish_compile cr.
  - destruct (metadata_is_ok w ("./clones/" ++ repo_name)).
    + cbn [negb mret mbind fst snd app].
      finish_compile cr.
    + cbn [negb]. unfold clone_repo. cbn [emit lift mbind fst snd app catch_unwind].
      rewrite Hok. cbn [emit lift mbind fst snd app catch_unwind mret].
      finish_compile cr.
  - destruct (metadata_is_ok w ("./clones/" ++ repo_name)).
    + cbn [negb mret mbind fst snd app].
      finish_compile cr.
    + cbn [negb]. unfold clone_repo. cbn [emit lift mbind fst snd app catch_unwind].
      rewrite Hpanic. cbn [emit lift mbind fst snd app catch_unwind mret].
      finish_compile cr.
Qed.

(** C4 (defect): when cloning panics, the panic is caught, the message
    "Ignoring repository due to lack of access." is printed, and the
    iteration falls through to [compile_contracts_from_repo] instead of
    skipping the contest as the [Ok(Err(_))] arm does with [continue]. *)
Theorem clone_panic_still_compiles (w : World) (c : Contest)
    (url repo_name m : string) :
  c.(repo) = Some url ->
  last_opt (split_on "/"%char url) = Some repo_name ->
  metadata_is_ok w ("./clones/" ++ repo_name) = false ->
  clone_recurse w url ("./clones/" ++ repo_name) = Panic m ->
  In (EvPrint ignoring_msg) (fst (process_contest w c))
  /\ In (EvCompile (("./clones/" ++ repo_name) ++ "/src")
                   (("./clones/" ++ repo_name) ++ "/remappings.txt"))
        (fst (process_contest w c)).
Proof.
  intros Hrepo Hname Hmeta Hpanic. split.
  - unfold process_contest. rewrite Hrepo. cbn [lift unwrap mbind fst snd].
    rewrite Hname. cbn [lift unwrap mbind fst snd app].
    rewrite Hmeta. cbn [negb]. unfold clone_repo.
    cbn [emit lift mbind fst snd app catch_unwind]. rewrite Hpanic.
    cbn [emit lift mbind fst snd app catch_unwind]. right. left. reflexivity.
  - destruct (process_contest_compiles w c url repo_name Hrepo Hname
                (or_intror (or_intror (ex_intro _ m Hpanic)))) as [pre [Htr _]].
    rewrite Htr. apply in_or_app. right.
    destruct (compile_contracts_from_repo_first_event w
                (("./clones/" ++ repo_name) ++ "/src")
                (("./clones/" ++ repo_name) ++ "/remappings.txt")) as [t Ht].
    rewrite Ht. left. reflexivity.
Qed.

Lemma clone_panic_still_compiles_witness :
  (contest_x.(repo) = Some "https://github.com/code-423n4/x"
   /\ last_opt (split_on "/"%char "https://github.com/code-423n4/x") = Some "x"
   /\ metadata_is_ok world_clone_panics ("./clones/" ++ "x") = false
   /\ clone_recurse world_clone_panics "https://github.com/code-423n4/x"
        ("./clones/" ++ "x") = Panic "authentication required")
  /\ In (EvCompile "./clones/x/src" "./clones/x/remappings.txt")
        (fst (process_contest world_clone_panics contest_x))
  /\ main_loop world_clone_panics [contest_x; contest_y]
     = ([EvClone "https://github.com/code-423n4/x" "./clones/x";
         EvPrint ignoring_msg;
         EvCompile "./clones/x/src" "./clones/x/remappings.txt"],
        Panic expect_read_msg).
Proof.
  split; [repeat split; reflexivity | split; [|vm_compute; reflexivity]].
  apply (clone_panic_still_compiles world_clone_panics contest_x
           "https://github.com/code-423n4/x" "x" "authentication required");
    reflexivity.
Defined.




(* ------------------------------------------------------------------ *)
(** ** Default branch resolution *)

(** C8 (counterexample): a success status whose body is not JSON makes
    [response.json()?] return its decode error: not the logged
    "Default branch not found" error. *)
Lemma default_branch_non_json_body :
  snd (get_default_branch env_non_json "code-423n4" "x") = Ret (Err DecodeError)
  /\ ~ In (EvLog not_found_log) (fst (get_default_branch env_non_json "code-423n4" "x")).
Proof.
  split; [reflexivity|]. cbn. intros [H|[]]. discriminate H.
Qed.

(** C8 (amended): with the token set and the request sent, resolution
    returns the branch name iff the status is a success, the body is JSON
    and its [default_branch] field is a string; a non-success status or a
    missing or non-string field gives the logged "Default branch not
    found" error; a success status with a body that is not JSON gives the
    decode error, with the request as the only event: nothing is logged;
    no case panics. *)
Theorem get_default_branch_sent (env : HttpEnv) (owner repo token : string)
    (resp : Response) :
  env.(github_pa_token) = Some token ->
  send env ("https://api.github.com/repos" ++ "/" ++ owner ++ "/" ++ repo) = Ok resp ->
  (forall b, snd (get_default_branch env owner repo) = Ret (Ok b)
             <-> is_success resp.(resp_status) = true
                 /\ exists json, resp.(resp_body_json) = Some json
                                 /\ json_get json "default_branch" = Some (JString b))
  /\ ((is_success resp.(resp_status) = false
       \/ exists json, resp.(resp_body_json) = Some json
                       /\ forall b, json_get json "default_branch" <> Some (JString b)) ->
      snd (get_default_branch env owner repo) = Ret (Err (MessageError not_found_msg))
      /\ In (EvLog not_found_log) (fst (get_default_branch env owner repo)))
  /\ (is_success resp.(resp_status) = true -> resp.(resp_body_json) = None ->
      get_default_branch env owner repo
      = ([EvSend ("https://api.github.com/repos" ++ "/" ++ owner ++ "/" ++ repo)],
         Ret (Err DecodeError))
      /\ ~ In (EvLog not_found_log) (fst (get_default_branch env owner repo)))
  /\ (exists v, snd (get_default_branch env owner repo) = Ret v).
Proof.
  intros Htok Hsend. unfold get_default_branch. cbv zeta.
  rewrite Htok. cbn [lift mbind emit fst snd app]. rewrite Hsend.
  cbn [lift mbind emit fst snd app mret].
  (* the not-found outcome *)
  assert (NF : forall (ok : bool) (body : option JsonValue),
      (forall b, ok = true -> forall json, body = Some json ->
                 json_get json "default_branch" <> Some (JString b)) ->
      (forall b, Ret (Err (MessageError not_found_msg)) = @Ret (result string BranchError) (Ok b)
                 <-> ok = true /\ exists json, body = Some json
                                  /\ json_get json "default_branch" = Some (JString b))).
  { intros ok body Hno b. split; [intros [=]|].
    intros [Hok [json [Hbody Hget]]]. exfalso. exact (Hno b Hok json Hbody Hget). }
  destruct (is_success (resp_status resp)) eqn:Hs.
  - destruct (resp_body_json resp) as [json|] eqn:Hb.
    + destruct (json_get json "default_branch") as [v|] eqn:Hg.
      * destruct v as [| | |b0| |]; cbn [mbind fst snd app mret emit].
        4: { split; [|split; [|split]].
             - intros b. split.
               + intros [= <-]. split; [reflexivity|]. exists json. auto.
               + intros [_ [j [[= <-] Hj]]]. rewrite Hg in Hj. injection Hj as ->.
                 reflexivity.
             - intros [[=]|[j [[= <-] Hj]]]. exfalso. exact (Hj b0 Hg).
             - intros _ [=].
             - eexists; reflexivity. }
        all: split; [apply NF; intros bb _ j [= <-]; rewrite Hg; discriminate|].
        all: split; [intros _; split; [reflexivity | right; left; reflexivity]|].
        all: split; [intros _ [=] | eexists; reflexivity].
      * cbn [mbind fst snd app mret emit].
        split; [apply NF; intros bb _ j [= <-]; rewrite Hg; discriminate|].
        split; [intros _; split; [reflexivity | right; left; reflexivity]|].
        split; [intros _ [=] | eexists; reflexivity].
    + cbn [mbind fst snd app mret emit]. split; [|split; [|split]].
      * intros b. split; [intros [=]|]. intros [_ [j [[=] _]]].
      * intros [[=]|[j [[=] _]]].
      * intros _ _. split; [reflexivity|]. cbn [fst In]. intros [H|[]]. discriminate H.
      * eexists; reflexivity.
  - cbn [mbind fst snd app mret emit].
    split; [apply NF; intros bb [=]|].
    split; [intros _; split; [reflexivity | right; left; reflexivity]|].
    split; [intros [=] | eexists; reflexivity].
Qed.

Lemma get_default_branch_sent_witness :
  (github_pa_token env_main = Some "token"
   /\ send env_main ("https://api.github.com/repos" ++ "/" ++ "code-423n4" ++ "/" ++ "x")
      = Ok (mkResponse 200 (Some (JObject [("default_branch", JString "main")]))))
  /\ snd (get_default_branch env_main "code-423n4" "x") = Ret (Ok "main").
Proof.
  split; [split; reflexivity|].
  apply (proj1 (get_default_branch_sent env_main "code-423n4" "x" "token"
                  (mkResponse 200 (Some (JObject [("default_branch", JString "main")])))
                  eq_refl eq_refl) "main").
  split; [reflexivity|]. eexists. split; reflexivity.
Defined.

(* ================================================================== *)
(** * Further properties of the program *)

(* ------------------------------------------------------------------ *)
(** ** The eligibility filter *)

(** The records the filter keeps form an order-preserving sublist of its
    input; each of them has [code_access] ["public"] and an end time after
    a clock reading taken during the pass (one of the readings [k] to
    [k + length cs - 1]). *)
Theorem filter_active_and_public_subseq (parse_from_rfc3339 : string -> option Z)
    (clock : nat -> Z) (k : nat) (cs out : list Contest) :
  filter_active_and_public parse_from_rfc3339 clock k cs = Ret out ->
  subseq out cs
  /\ Forall (fun c => c.(code_access) = Some "public"
                      /\ exists s e i, c.(end_time) = Some s
                                       /\ parse_from_rfc3339 s = Some e
                                       /\ (k <= i < k + length cs)%nat
                                       /\ (clock i < e)%Z) out.
Proof.
  revert k out. induction cs as [|c cs IH]; intros k out H.
  - injection H as <-. split; constructor.
  - simpl in H. cbn [length].
    destruct (filter_active_and_public parse_from_rfc3339 clock (S k) cs)
      as [kept|m] eqn:Hrest;
      [|destruct (is_active_and_public parse_from_rfc3339 (clock k) c); discriminate H].
    destruct (IH (S k) kept Hrest) as [Hsub Hall].
    assert (Hall' : Forall (fun c => c.(code_access) = Some "public"
                      /\ exists s e i, c.(end_time) = Some s
                                       /\ parse_from_rfc3339 s = Some e
                                       /\ (k <= i < k + S (length cs))%nat
                                       /\ (clock i < e)%Z) kept).
    { eapply Forall_impl; [|exact Hall].
      intros x (Ha & s & e & i & Hs & He & Hi & Hlt).
      split; [exact Ha|]. exists s, e, i. repeat split; auto; lia. }
    destruct (is_active_and_public parse_from_rfc3339 (clock k) c) as [r|m] eqn:Hc;
      [|discriminate H].
    injection H as <-.
    destruct (unwrap_or r false) eqn:Hr.
    + split; [constructor; exact Hsub | constructor; [|exact Hall']].
      unfold is_active_and_public in Hc.
      destruct (end_time c) as [s|] eqn:Hs; [|discriminate Hc].
      destruct (parse_from_rfc3339 s) as [e|] eqn:He;
        [|injection Hc as <-; simpl in Hr; discriminate Hr].
      destruct (Z.ltb_spec (clock k) e) as [Hlt|Hge];
        [|injection Hc as <-; simpl in Hr; discriminate Hr].
      destruct (code_access c) as [a|] eqn:Ha; [|discriminate Hc].
      injection Hc as <-. simpl in Hr. apply String.eqb_eq in Hr. subst a.
      split; [reflexivity|]. exists s, e, k. repeat split; auto; lia.
    + split; [constructor; exact Hsub | exact Hall'].
Qed.

Lemma filter_active_and_public_subseq_witness :
  filter_active_and_public rfc3339_subset (fun _ => 9000000000%Z) 0
    [public_at_ten; private_at_ten] = Ret [public_at_ten]
  /\ subseq [public_at_ten] [public_at_ten; private_at_ten].
Proof.
  assert (H : filter_active_and_public rfc3339_subset (fun _ => 9000000000%Z) 0
                [public_at_ten; private_at_ten] = Ret [public_at_ten])
    by (vm_compute; reflexivity).
  split; [exact H|].
  exact (proj1 (filter_active_and_public_subseq _ _ _ _ _ H)).
Defined.

(** With one clock reading for the whole pass, a later instant keeps a
    sublist of what an earlier instant keeps: on well-formed records the
    filter never keeps more as time passes. *)
Theorem filter_active_and_public_antitone (parse_from_rfc3339 : string -> option Z)
    (now1 now2 : Z) (k : nat) (cs : list Contest) :
  Forall (well_formed parse_from_rfc3339) cs -> (now1 <= now2)%Z ->
  exists out1 out2,
    filter_active_and_public parse_from_rfc3339 (fun _ => now1) k cs = Ret out1
    /\ filter_active_and_public parse_from_rfc3339 (fun _ => now2) k cs = Ret out2
    /\ subseq out2 out1.
Proof.
  intros Hwf Hle. revert k. induction Hwf as [|c cs Hc Hcs IH]; intros k.
  - exists [], []. split; [reflexivity | split; [reflexivity | constructor]].
  - destruct (IH (S k)) as (o1 & o2 & H1 & H2 & Hsub).
    destruct Hc as (s & e & a & Hs & He & Ha).
    simpl.
    rewrite (is_active_and_public_well_formed _ now1 _ _ _ _ Hs He Ha),
            (is_active_and_public_well_formed _ now2 _ _ _ _ Hs He Ha), H1, H2.
    simpl. eexists _, _. split; [reflexivity | split; [reflexivity|]].
    destruct (String.eqb a "public"); rewrite ?andb_true_r, ?andb_false_r; [|exact Hsub].
    destruct (Z.ltb_spec now2 e); destruct (Z.ltb_spec now1 e); try lia.
    + apply subseq_take. exact Hsub.
    + apply subseq_skip. exact Hsub.
    + exact Hsub.
Qed.

Lemma filter_active_and_public_antitone_witness :
  Forall (well_formed rfc3339_subset) [public_at_ten; private_at_ten]
  /\ (9000000000 <= 11000000000)%Z
  /\ exists out1 out2,
       filter_active_and_public rfc3339_subset (fun _ => 9000000000%Z) 0
         [public_at_ten; private_at_ten] = Ret out1
       /\ filter_active_and_public rfc3339_subset (fun _ => 11000000000%Z) 0
            [public_at_ten; private_at_ten] = Ret out2
       /\ subseq out2 out1.
Proof.
  assert (Hwf : Forall (well_formed rfc3339_subset) [public_at_ten; private_at_ten]).
  { repeat constructor; [exact public_at_ten_well_formed
                        | exact private_at_ten_well_formed]. }
  assert (Hle : (9000000000 <= 11000000000)%Z) by lia.
  split; [exact Hwf | split; [exact Hle|]].
  exact (filter_active_and_public_antitone rfc3339_subset _ _ 0 _ Hwf Hle).
Defined.

(** A record whose end time parses but that has no [code_access] is
    dropped when its end time is not after the clock reading (the [&&]
    does not evaluate the [unwrap]), and makes the pass panic when it
    is. *)
Theorem filter_code_access_missing (parse_from_rfc3339 : string -> option Z)
    (clock : nat -> Z) (k : nat) (c : Contest) (rest : list Contest) (s : string) (e : Z) :
  c.(end_time) = Some s -> parse_from_rfc3339 s = Some e -> c.(code_access) = None ->
  ((e <= clock k)%Z ->
     filter_active_and_public parse_from_rfc3339 clock k (c :: rest)
     = filter_active_and_public parse_from_rfc3339 clock (S k) rest)
  /\ ((clock k < e)%Z ->
     filter_active_and_public parse_from_rfc3339 clock k (c :: rest) = Panic unwrap_msg).
Proof.
  intros Hs He Ha. simpl. unfold is_active_and_public. rewrite Hs, He.
  split; intros Hlt.
  - replace (Z.ltb (clock k) e) with false by (symmetry; apply Z.ltb_ge; exact Hlt).
    destruct (filter_active_and_public parse_from_rfc3339 clock (S k) rest); reflexivity.
  - replace (Z.ltb (clock k) e) with true by (symmetry; apply Z.ltb_lt; exact Hlt).
    rewrite Ha. reflexivity.
Qed.

Lemma filter_code_access_missing_witness :
  filter_active_and_public rfc3339_subset (fun _ => 11000000000%Z) 0
    [contest_with (Some "1970-01-01T00:00:10Z") None None; public_at_ten] = Ret []
  /\ filter_active_and_public rfc3339_subset (fun _ => 9000000000%Z) 0
       [contest_with (Some "1970-01-01T00:00:10Z") None None; public_at_ten]
     = Panic unwrap_msg.
Proof.
  destruct (filter_code_access_missing rfc3339_subset (fun _ => 11000000000%Z) 0
              (contest_with (Some "1970-01-01T00:00:10Z") None None) [public_at_ten]
              "1970-01-01T00:00:10Z" ten_s eq_refl rfc3339_subset_ten eq_refl)
    as [Hdrop _].
  destruct (filter_code_access_missing rfc3339_subset (fun _ => 9000000000%Z) 0
              (contest_with (Some "1970-01-01T00:00:10Z") None None) [public_at_ten]
              "1970-01-01T00:00:10Z" ten_s eq_refl rfc3339_subset_ten eq_refl)
    as [_ Hpanic].
  split.
  - rewrite Hdrop by (unfold ten_s; lia). vm_compute. reflexivity.
  - apply Hpanic. unfold ten_s. lia.
Defined.

(** A record whose end time does not parse is dropped and the pass goes
    on with the next record (and the next clock reading). *)
Theorem filter_unparsable_end_time_dropped (parse_from_rfc3339 : string -> option Z)
    (clock : nat -> Z) (k : nat) (c : Contest) (rest : list Contest) (s : string) :
  c.(end_time) = Some s -> parse_from_rfc3339 s = None ->
  filter_active_and_public parse_from_rfc3339 clock k (c :: rest)
  = filter_active_and_public parse_from_rfc3339 clock (S k) rest.
Proof.
  intros Hs He. simpl. unfold is_active_and_public. rewrite Hs, He.
  destruct (filter_active_and_public parse_from_rfc3339 clock (S k) rest); reflexivity.
Qed.

Lemma filter_unparsable_end_time_dropped_witness :
  rfc3339_subset "next week" = None
  /\ filter_active_and_public rfc3339_subset (fun _ => 0%Z) 0
       [contest_with (Some "next week") (Some "public") None; public_at_ten]
     = Ret [public_at_ten].
Proof.
  assert (Hp : rfc3339_subset "next week" = None) by (vm_compute; reflexivity).
  split; [exact Hp|].
  rewrite (filter_unparsable_end_time_dropped rfc3339_subset (fun _ => 0%Z) 0
             (contest_with (Some "next week") (Some "public") None) [public_at_ten]
             "next week" eq_refl Hp).
  vm_compute. reflexivity.
Defined.

(* ------------------------------------------------------------------ *)
(** ** The listing page *)

Lemma last_default_irrelevant {A} (l : list A) (d1 d2 : A) :
  l <> [] -> last l d1 = last l d2.
Proof.
  induction l as [|x l IH]; intros Hne; [congruence|].
  destruct l as [|y l]; [reflexivity|]. simpl. apply IH. discriminate.
Qed.

Lemma scan_scripts_acc (acc : string) (scripts : list string) :
  scan_scripts acc scripts = last (filter_map script_payload scripts) acc.
Proof.
  revert acc. induction scripts as [|h t IH]; intros acc; [reflexivity|].
  simpl. rewrite IH. destruct (script_payload h) as [j|]; [|reflexivity].
  destruct (filter_map script_payload t) as [|x l]; [reflexivity|].
  change (last (j :: x :: l) acc) with (last (x :: l) acc).
  apply last_default_irrelevant. discriminate.
Qed.

(** The JSON text that is parsed is the one taken from the last payload
    script of the page (a later payload replaces an earlier one), and the
    empty text when the page has none. *)
Theorem scan_scripts_last_payload (scripts : list string) :
  scan_scripts EmptyString scripts = last (filter_map script_payload scripts) EmptyString.
Proof. apply scan_scripts_acc. Qed.

Lemma str_length_app (s t : string) :
  String.length (s ++ t) = String.length s + String.length t.
Proof. induction s as [|a s IH]; simpl; [reflexivity | now rewrite IH]. Qed.

Lemma prefix_self_app (s t : string) : String.prefix s (s ++ t) = true.
Proof.
  induction s as [|a s IH]; [destruct t; reflexivity|]. simpl.
  destruct (ascii_dec a a) as [_|n]; [exact IH | contradiction].
Qed.

Lemma prefix_app_mono (s1 s2 t : string) :
  String.prefix s1 s2 = true -> String.prefix s1 (s2 ++ t) = true.
Proof.
  revert s2. induction s1 as [|a s1 IH]; intros s2 H; [destruct (s2 ++ t); reflexivity|].
  destruct s2 as [|b s2]; [discriminate H|]. simpl in *.
  destruct (ascii_dec a b); [exact (IH s2 H) | discriminate H].
Qed.

Lemma str_drop_app (s t : string) : str_drop (String.length s) (s ++ t) = t.
Proof. induction s as [|a s IH]; [destruct t; reflexivity | exact IH]. Qed.

(** A pattern present once in front is removed once. *)
Lemma trim_start_matches_once (pat r : string) :
  pat <> EmptyString -> String.prefix pat r = false ->
  trim_start_matches pat (pat ++ r) = r.
Proof.
  intros Hne Hr. unfold trim_start_matches.
  destruct (String.eqb_spec pat EmptyString) as [E|_]; [contradiction|].
  assert (Hlen : exists n, String.length (pat ++ r) = S n).
  { destruct pat as [|a p]; [contradiction|]. eexists. reflexivity. }
  destruct Hlen as [n Hn]. rewrite Hn.
  cbn [trim_start_matches_fuel]. rewrite prefix_self_app, str_drop_app.
  destruct n as [|n']; cbn [trim_start_matches_fuel]; rewrite Hr; reflexivity.
Qed.

Lemma list_ascii_of_string_app (s t : string) :
  list_ascii_of_string (s ++ t) = (list_ascii_of_string s ++ list_ascii_of_string t)%list.
Proof. induction s as [|a s IH]; simpl; [reflexivity | now rewrite IH]. Qed.

Lemma string_rev_app (s t : string) : string_rev (s ++ t) = string_rev t ++ string_rev s.
Proof.
  unfold string_rev. rewrite list_ascii_of_string_app, rev_app_distr.
  apply string_of_list_ascii_app.
Qed.

Lemma string_rev_involutive (s : string) : string_rev (string_rev s) = s.
Proof.
  unfold string_rev. rewrite list_ascii_of_string_of_list_ascii, rev_involutive.
  apply string_of_list_ascii_of_string.
Qed.

Lemma trim_end_matches_once (pat b : string) :
  pat <> EmptyString -> ends_with pat b = false ->
  trim_end_matches pat (b ++ pat) = b.
Proof.
  intros Hne Hb. unfold trim_end_matches. rewrite string_rev_app.
  rewrite trim_start_matches_once; [apply string_rev_involutive| |exact Hb].
  intros E. apply (f_equal string_rev) in E. rewrite string_rev_involutive in E.
  exact (Hne E).
Qed.

Lemma escape_quotes_head (s t : string) (b : ascii) :
  escape_quotes s = String b t -> b <> "034"%char.
Proof.
  destruct s as [|a s]; simpl; [discriminate|].
  destruct (Ascii.eqb_spec a "034"%char) as [_|Ha]; intros [= <- _]; [discriminate | exact Ha].
Qed.

(** Removing the backslashes before double quotes undoes adding them. *)
Lemma unescape_escape_quotes (s : string) : unescape_quotes (escape_quotes s) = s.
Proof.
  induction s as [|a s IH]; [reflexivity|]. simpl.
  destruct (Ascii.eqb_spec a "034"%char) as [->|Ha].
  - simpl. rewrite IH. reflexivity.
  - destruct (escape_quotes s) as [|b t] eqn:He.
    + simpl in IH. rewrite <- IH. reflexivity.
    + pose proof (escape_quotes_head _ _ _ He) as Hb.
      change (unescape_quotes (String a (String b t)))
        with (if Ascii.eqb a "\"%char && Ascii.eqb b "034"%char
              then String "034"%char (unescape_quotes t)
              else String a (unescape_quotes (String b t))).
      destruct (Ascii.eqb_spec b "034"%char) as [E|_]; [contradiction|].
      rewrite andb_false_r, IH. reflexivity.
Qed.

(** A script holding the push call, the frame prefix, a JSON text as the
    page escapes it (a backslash before each double quote), and the frame
    suffix gives back that JSON text, provided the escaped text neither
    starts with the frame prefix nor ends with the frame suffix (else
    [trim_start_matches]/[trim_end_matches] would strip them again). *)
Theorem script_payload_roundtrip (json : string) :
  String.prefix payload_prefix (escape_quotes json ++ payload_suffix) = false ->
  ends_with payload_suffix (escape_quotes json) = false ->
  script_payload (push_call ++ payload_prefix ++ escape_quotes json ++ payload_suffix)
  = Some json.
Proof.
  intros H1 H2. unfold script_payload. cbv zeta.
  rewrite trim_start_matches_once;
    [| unfold push_call; discriminate | unfold payload_prefix; reflexivity].
  rewrite (prefix_app_mono payload_start payload_prefix _ ltac:(reflexivity)).
  cbv iota.
  rewrite trim_start_matches_once by (unfold payload_prefix; simpl; discriminate || exact H1).
  rewrite trim_end_matches_once by (unfold payload_suffix; simpl; discriminate || exact H2).
  rewrite unescape_escape_quotes. reflexivity.
Qed.

Lemma script_payload_roundtrip_witness :
  String.prefix payload_prefix (escape_quotes (json_text listing_value) ++ payload_suffix)
  = false
  /\ ends_with payload_suffix (escape_quotes (json_text listing_value)) = false
  /\ script_payload listing_script = Some (json_text listing_value).
Proof.
  assert (H1 : String.prefix payload_prefix
                 (escape_quotes (json_text listing_value) ++ payload_suffix) = false)
    by (vm_compute; reflexivity).
  assert (H2 : ends_with payload_suffix (escape_quotes (json_text listing_value)) = false)
    by (vm_compute; reflexivity).
  split; [exact H1 | split; [exact H2|]].
  exact (script_payload_roundtrip (json_text listing_value) H1 H2).
Defined.

(** When the text taken from the page is not JSON, the listing prints
    the parser's error and returns no contest, without panicking. *)
Theorem get_active_contests_json_error (env : ListingEnv)
    (parse_from_rfc3339 : string -> option Z) (clock : nat -> Z) (url page err : string) :
  get_text env url = Ok page ->
  json_from_str env (scan_scripts EmptyString (script_inner_htmls env page)) = Err err ->
  get_active_contests env parse_from_rfc3339 clock url
  = ([EvPrint (json_error_msg err)], Ret []).
Proof.
  intros Hg Hj. unfold get_active_contests. rewrite Hg.
  cbn [lift mbind fst snd app]. rewrite Hj. reflexivity.
Qed.

Lemma get_active_contests_json_error_witness :
  get_text listing_env_no_payload contests_url = Ok "<html></html>"
  /\ json_from_str listing_env_no_payload
       (scan_scripts EmptyString (script_inner_htmls listing_env_no_payload "<html></html>"))
     = Err "EOF while parsing a value at line 1 column 0"
  /\ get_active_contests listing_env_no_payload rfc3339_subset (fun _ => 0%Z) contests_url
     = ([EvPrint (json_error_msg "EOF while parsing a value at line 1 column 0")], Ret []).
Proof.
  assert (Hg : get_text listing_env_no_payload contests_url = Ok "<html></html>")
    by reflexivity.
  assert (Hj : json_from_str listing_env_no_payload
                 (scan_scripts EmptyString
                    (script_inner_htmls listing_env_no_payload "<html></html>"))
               = Err "EOF while parsing a value at line 1 column 0")
    by (vm_compute; reflexivity).
  split; [exact Hg | split; [exact Hj|]].
  exact (get_active_contests_json_error _ _ _ _ _ _ Hg Hj).
Defined.

(** The listing panics, with nothing printed, when the page cannot be
    fetched, and when the parsed JSON has no array at
    [children[3].children[3].contests]. *)
Theorem get_active_contests_panics (env : ListingEnv)
    (parse_from_rfc3339 : string -> option Z) (clock : nat -> Z) (url : string) :
  (forall e, get_text env url = Err e ->
     get_active_contests env parse_from_rfc3339 clock url = ([], Panic result_unwrap_msg))
  /\ (forall page parsed,
        get_text env url = Ok page ->
        json_from_str env (scan_scripts EmptyString (script_inner_htmls env page))
        = Ok parsed ->
        json_as_array (contests_value parsed) = None ->
        get_active_contests env parse_from_rfc3339 clock url = ([], Panic unwrap_msg)).
Proof.
  split.
  - intros e Hg. unfold get_active_contests. rewrite Hg. reflexivity.
  - intros page parsed Hg Hj Ha. unfold get_active_contests. rewrite Hg.
    cbn [lift mbind fst snd app]. rewrite Hj. rewrite Ha. reflexivity.
Qed.

Lemma get_active_contests_panics_witness :
  get_active_contests (mkListingEnv (fun _ => Err "connection refused")
                                    (fun _ => []) (fun _ => Err "unused"))
                      rfc3339_subset (fun _ => 0%Z) contests_url
  = ([], Panic result_unwrap_msg)
  /\ get_active_contests (mkListingEnv (fun _ => Ok "<html></html>")
                                       (fun _ => []) (fun _ => Ok (JObject [])))
                         rfc3339_subset (fun _ => 0%Z) contests_url
     = ([], Panic unwrap_msg).
Proof.
  split.
  - apply (proj1 (get_active_contests_panics _ _ _ _) "connection refused").
    reflexivity.
  - apply (proj2 (get_active_contests_panics _ _ _ _) "<html></html>" (JObject []));
      reflexivity.
Defined.

(** When the contests array is found, the listing is the eligibility
    filter run over the array's elements that deserialise into a
    [Contest], in order; the other elements are dropped silently. *)
Theorem get_active_contests_decoded (env : ListingEnv)
    (parse_from_rfc3339 : string -> option Z) (clock : nat -> Z)
    (url page : string) (parsed : JsonValue) (items : list JsonValue) :
  get_text env url = Ok page ->
  json_from_str env (scan_scripts EmptyString (script_inner_htmls env page)) = Ok parsed ->
  contests_value parsed = JArray items ->
  get_active_contests env parse_from_rfc3339 clock url
  = ([], filter_active_and_public parse_from_rfc3339 clock 0
           (filter_map contest_of_json items)).
Proof.
  intros Hg Hj Ha. unfold get_active_contests. rewrite Hg.
  cbn [lift mbind fst snd app]. rewrite Hj. rewrite Ha. reflexivity.
Qed.

Lemma get_active_contests_decoded_witness :
  get_text listing_env contests_url = Ok "<html></html>"
  /\ json_from_str listing_env
       (scan_scripts EmptyString (script_inner_htmls listing_env "<html></html>"))
     = Ok listing_value
  /\ contests_value listing_value
     = JArray [contest_x_json;
               JObject [("end_time", JString "2030-01-01T00:00:00Z")]; JString "x"]
  /\ get_active_contests listing_env rfc3339_subset (fun _ => 0%Z) contests_url
     = ([], Ret [contest_x]).
Proof.
  assert (Hg : get_text listing_env contests_url = Ok "<html></html>") by reflexivity.
  assert (Hj : json_from_str listing_env
                 (scan_scripts EmptyString (script_inner_htmls listing_env "<html></html>"))
               = Ok listing_value) by (vm_compute; reflexivity).
  assert (Ha : contests_value listing_value
               = JArray [contest_x_json;
                         JObject [("end_time", JString "2030-01-01T00:00:00Z")];
                         JString "x"]) by reflexivity.
  split; [exact Hg | split; [exact Hj | split; [exact Ha|]]].
  rewrite (get_active_contests_decoded _ _ _ _ _ _ _ Hg Hj Ha).
  vm_compute. reflexivity.
Defined.

Ltac bind_none :=
  repeat first
    [ reflexivity
    | match goal with
      | |- match ?x with Some _ => _ | None => None end = None =>
          destruct x; [|reflexivity]
      end ].

(** A listing element is dropped when it lacks [sponsor_data] (the one
    field of [Contest] that is not an [Option]) or when its [end_time] is
    neither a string nor [null]. *)
Theorem contest_of_json_rejects (fields : list (string * JsonValue)) :
  (map_get "sponsor_data" fields = None -> contest_of_json (JObject fields) = None)
  /\ (forall v, map_get "end_time" fields = Some v -> v <> JNull ->
        (forall s, v <> JString s) -> contest_of_json (JObject fields) = None).
Proof.
  split.
  - intros Hsd. unfold contest_of_json. cbn [struct_fields].
    rewrite Hsd. cbn [de_required]. bind_none.
  - intros v Hv Hnull Hstr. unfold contest_of_json. cbn [struct_fields].
    assert (Hd : de_option de_string (Some v) = None).
    { destruct v; try reflexivity; [contradiction | exfalso; eapply Hstr; reflexivity]. }
    rewrite Hv, Hd. bind_none.
Qed.

Lemma contest_of_json_rejects_witness :
  contest_of_json (JObject [("end_time", JString "2030-01-01T00:00:00Z")]) = None
  /\ contest_of_json (JObject [("end_time", JNumber 1893456000);
                               ("sponsor_data", JObject [])]) = None.
Proof.
  split.
  - apply (proj1 (contest_of_json_rejects _)). reflexivity.
  - apply (proj2 (contest_of_json_rejects _) (JNumber 1893456000));
      [reflexivity | discriminate | intros s; discriminate].
Defined.

(** Fields that are not those of [Contest] are ignored. *)
Theorem contest_of_json_ignores_unknown_field (fields : list (string * JsonValue))
    (key : string) (v : JsonValue) :
  existsb (String.eqb key) contest_fields = false ->
  contest_of_json (JObject ((key, v) :: fields)) = contest_of_json (JObject fields).
Proof.
  intros Hk.
  assert (Hne : forall f, In f contest_fields -> String.eqb f key = false).
  { intros f Hin. destruct (String.eqb_spec f key) as [<-|]; [|reflexivity].
    assert (existsb (String.eqb f) contest_fields = true).
    { apply existsb_exists. exists f. split; [exact Hin | apply String.eqb_refl]. }
    congruence. }
  unfold contest_of_json. cbn [struct_fields map_get].
  rewrite !Hne by (simpl; repeat (first [left; reflexivity | right])).
  reflexivity.
Qed.

Lemma contest_of_json_ignores_unknown_field_witness :
  existsb (String.eqb "trackId") contest_fields = false
  /\ contest_of_json (JObject (("trackId", JNumber 7) :: match contest_x_json with
                                                       | JObject f => f
                                                       | _ => []
                                                       end))
     = Some contest_x.
Proof.
  assert (Hk : existsb (String.eqb "trackId") contest_fields = false)
    by (vm_compute; reflexivity).
  split; [exact Hk|].
  rewrite (contest_of_json_ignores_unknown_field _ _ (JNumber 7) Hk).
  vm_compute. reflexivity.
Defined.

(* ------------------------------------------------------------------ *)
(** ** Requests to the GitHub API *)

(** Without [GITHUB_PA_TOKEN], the three API functions panic before any
    request is sent. *)
Theorem github_token_missing_panics (env : HttpEnv) (owner repo url : string) :
  env.(github_pa_token) = None ->
  get_default_branch env owner repo = ([], Panic result_unwrap_msg)
  /\ clone_contract env url = ([], Panic result_unwrap_msg)
  /\ get_contracts_urls_from_api env url = ([], Panic result_unwrap_msg).
Proof.
  intros H.
  unfold get_default_branch, clone_contract, get_contracts_urls_from_api, github_get.
  rewrite H. repeat split; reflexivity.
Qed.

Lemma github_token_missing_panics_witness :
  github_pa_token env_no_token = None
  /\ clone_contract env_no_token "https://api.github.com/blobs/a"
     = ([], Panic result_unwrap_msg).
Proof.
  split; [reflexivity|].
  exact (proj1 (proj2 (github_token_missing_panics env_no_token "code-423n4" "x"
                         "https://api.github.com/blobs/a" eq_refl))).
Defined.

Lemma github_get_sent {T} (env : HttpEnv) (de : JsonValue -> option T)
    (url token : string) :
  env.(github_pa_token) = Some token ->
  github_get env de url
  = ([EvSend url],
     Ret (match send env url with
          | Err e => Err (RequestFailed e)
          | Ok response =>
              match response.(resp_body_json) with
              | Some json => match de json with
                             | Some t => Ok t
                             | None => Err BodyDecodeFailed
                             end
              | None => Err BodyDecodeFailed
              end
          end)).
Proof.
  intros H. unfold github_get. rewrite H. cbn [lift mbind emit fst snd app].
  destruct (send env url) as [response|e]; [|reflexivity].
  destruct (resp_body_json response) as [json|]; [|reflexivity].
  destruct (de json); reflexivity.
Qed.

(** With the token set, [clone_contract] never panics: a failed request
    is returned as an error, and the result depends on the response body
    only, never on its status code. *)
Theorem clone_contract_ignores_status (env : HttpEnv) (url token : string) :
  env.(github_pa_token) = Some token ->
  (exists res, clone_contract env url = ([EvSend url], Ret res))
  /\ (forall e, send env url = Err e ->
        clone_contract env url = ([EvSend url], Ret (Err (RequestFailed e))))
  /\ (forall (response : Response) (code : Z), send env url = Ok response ->
        clone_contract env url
        = clone_contract (mkHttpEnv (Some token)
                            (fun _ => Ok (mkResponse code response.(resp_body_json)))) url).
Proof.
  intros H. unfold clone_contract. rewrite (github_get_sent _ _ _ _ H).
  split; [eexists; reflexivity|]. split.
  - intros e He. rewrite He. reflexivity.
  - intros response code Hr.
    rewrite (github_get_sent (mkHttpEnv (Some token)
               (fun _ => Ok (mkResponse code response.(resp_body_json))))
               github_file_of_json url token eq_refl).
    rewrite Hr. reflexivity.
Qed.

Lemma clone_contract_ignores_status_witness :
  github_pa_token env_tree_404 = Some "token"
  /\ snd (clone_contract env_tree_404 "https://api.github.com/blobs/a")
     = Ret (Err BodyDecodeFailed)
  /\ clone_contract env_unreachable "https://api.github.com/blobs/a"
     = ([EvSend "https://api.github.com/blobs/a"], Ret (Err (RequestFailed "dns error"))).
Proof.
  split; [reflexivity | split].
  - rewrite (proj2 (proj2 (clone_contract_ignores_status env_tree_404
                             "https://api.github.com/blobs/a" "token" eq_refl))
               tree_404 200%Z eq_refl).
    reflexivity.
  - exact (proj1 (proj2 (clone_contract_ignores_status env_unreachable
                           "https://api.github.com/blobs/a" "token" eq_refl))
             "dns error" eq_refl).
Defined.

(** With the token set, listing a repository's contracts sends one
    request and never panics, whatever the response: a failed request is
    returned as an error, and a body that decodes to a
    tree gives its Solidity blobs whatever the status code (a 404 answer
    with a tree body is accepted). *)
Theorem get_contracts_urls_from_api_sent (env : HttpEnv) (api_url token : string) :
  env.(github_pa_token) = Some token ->
  (exists res, get_contracts_urls_from_api env api_url = ([EvSend api_url], Ret res))
  /\ (forall e, send env api_url = Err e ->
     get_contracts_urls_from_api env api_url
     = ([EvSend api_url], Ret (Err (RequestFailed e))))
  /\ (forall response json t,
        send env api_url = Ok response -> response.(resp_body_json) = Some json ->
        github_tree_of_json json = Some t ->
        get_contracts_urls_from_api env api_url
        = ([EvSend api_url], Ret (Ok (map url_and_filename (filter is_sol_blob t.(tree)))))).
Proof.
  intros H. unfold get_contracts_urls_from_api. rewrite (github_get_sent _ _ _ _ H).
  split; [|split].
  - destruct (send env api_url) as [response|e]; [|eexists; reflexivity].
    destruct (resp_body_json response) as [json|]; [|eexists; reflexivity].
    destruct (github_tree_of_json json); eexists; reflexivity.
  - intros e He. rewrite He. reflexivity.
  - intros response json t Hr Hb Ht. rewrite Hr, Hb, Ht. reflexivity.
Qed.

Lemma get_contracts_urls_from_api_sent_witness :
  github_pa_token env_tree_404 = Some "token"
  /\ get_contracts_urls_from_api env_tree_404 "https://api.github.com/trees/main"
     = ([EvSend "https://api.github.com/trees/main"],
        Ret (Ok [("https://api.github.com/blobs/a", "A.sol")])).
Proof.
  split; [reflexivity|].
  rewrite (proj2 (proj2 (get_contracts_urls_from_api_sent env_tree_404
                    "https://api.github.com/trees/main" "token" eq_refl))
             tree_404 _ _ eq_refl eq_refl eq_refl).
  reflexivity.
Defined.

(** When the request for the default branch cannot be sent, the failure
    is logged and the function panics (the [unwrap] after [map_err]). *)
Theorem get_default_branch_send_failure (env : HttpEnv) (owner repo token e : string) :
  env.(github_pa_token) = Some token ->
  send env ("https://api.github.com/repos" ++ "/" ++ owner ++ "/" ++ repo) = Err e ->
  get_default_branch env owner repo
  = ([EvSend ("https://api.github.com/repos" ++ "/" ++ owner ++ "/" ++ repo);
      EvLog ("Failed to send request to GitHub API: " ++ e)], Panic result_unwrap_msg).
Proof.
  intros Ht Hs. unfold get_default_branch. cbv zeta. rewrite Ht.
  cbn [lift mbind emit fst snd app]. rewrite Hs. reflexivity.
Qed.

Lemma get_default_branch_send_failure_witness :
  github_pa_token env_unreachable = Some "token"
  /\ send env_unreachable ("https://api.github.com/repos" ++ "/" ++ "code-423n4" ++ "/" ++ "x")
     = Err "dns error"
  /\ snd (get_default_branch env_unreachable "code-423n4" "x") = Panic result_unwrap_msg.
Proof.
  split; [reflexivity | split; [reflexivity|]].
  rewrite (get_default_branch_send_failure env_unreachable "code-423n4" "x" "token"
             "dns error" eq_refl eq_refl).
  reflexivity.
Defined.

(* ------------------------------------------------------------------ *)
(** ** Bytecode as hex text *)

Lemma hex_decode_byte (b : Byte.byte) (rest : string) :
  hex_decode (hex_encode [b] ++ rest)
  = match hex_decode rest with Some bs => Some (b :: bs) | None => None end.
Proof. destruct b; reflexivity. Qed.

Lemma hex_decode_encode (bs : list Byte.byte) : hex_decode (hex_encode bs) = Some bs.
Proof.
  induction bs as [|b bs IH]; [reflexivity|].
  change (hex_encode (b :: bs)) with (hex_encode [b] ++ hex_encode bs).
  rewrite hex_decode_byte, IH. reflexivity.
Qed.

(** Every pair returned by [get_contracts_bytecodes] names a contract of
    the requested file, and its hex text decodes back to that contract's
    bytecode; a returned list is never empty. *)
Theorem get_contracts_bytecodes_hex_roundtrip (contracts : Contracts) (filename : string)
    (pairs : list (string * string)) :
  get_contracts_bytecodes contracts filename = Some pairs ->
  pairs <> []
  /\ exists file_contracts,
       map_get filename contracts = Some file_contracts
       /\ Forall (fun p => exists c bs, In (fst p, c) file_contracts
                                        /\ linked_bytes c = Some bs
                                        /\ hex_decode (snd p) = Some bs) pairs.
Proof.
  unfold get_contracts_bytecodes. intros H.
  destruct (map_get filename contracts) as [fc|]; [|discriminate H].
  destruct (filter_map contract_bytecode fc) as [|p0 ps] eqn:Hf; [discriminate H|].
  injection H as <-. split; [discriminate|]. exists fc. split; [reflexivity|].
  rewrite <- Hf. apply Forall_forall. intros [n h] Hin.
  apply in_filter_map in Hin. destruct Hin as ([n' c] & Hin & Hcb).
  unfold contract_bytecode in Hcb.
  destruct (evm c) as [[[[[bs|ph]]|]]|] eqn:Hevm; try discriminate Hcb.
  injection Hcb as <- <-. exists c, bs. split; [exact Hin|]. split.
  - unfold linked_bytes. rewrite Hevm. reflexivity.
  - apply hex_decode_encode.
Qed.

Lemma get_contracts_bytecodes_hex_roundtrip_witness :
  get_contracts_bytecodes (foo_contracts (Bytecode [Byte.x60; Byte.x80])) "Foo.sol"
  = Some [("Foo", "6080")]
  /\ hex_decode "6080" = Some [Byte.x60; Byte.x80].
Proof.
  assert (H : get_contracts_bytecodes (foo_contracts (Bytecode [Byte.x60; Byte.x80]))
                "Foo.sol" = Some [("Foo", "6080")]) by reflexivity.
  split; [exact H|].
  destruct (get_contracts_bytecodes_hex_roundtrip _ _ _ H) as [_ (fc & Hfc & Hall)].
  inversion Hall as [|? ? (c & bs & Hin & Hlb & Hdec) _]; subst.
  simpl in Hfc. injection Hfc as <-. simpl in Hin.
  destruct Hin as [[= <-]|[]]. simpl in Hlb. injection Hlb as <-. exact Hdec.
Defined.

(* ------------------------------------------------------------------ *)
(** ** The main loop *)

Lemma compile_contracts_from_repo_trace (w : World) (cp rp : string) :
  fst (compile_contracts_from_repo w cp rp) = [EvCompile cp rp].
Proof.
  unfold compile_contracts_from_repo. cbn [emit mbind fst snd].
  destruct (compiler_input_new w cp) as [input|e]; cbn [mret fst app]; [|reflexivity].
  destruct (read_remappings_file (read_to_string w) rp) as [rms|m];
    cbn [lift mbind fst snd app]; [|reflexivity].
  destruct (index 0 input) as [i0|m]; cbn [lift mbind fst snd app]; [|reflexivity].
  destruct (solc_compile w _); reflexivity.
Qed.

(** A contest whose clone directory already exists is not cloned again:
    the iteration only compiles, and its outcome is the compilation's. *)
Theorem process_contest_existing_clone (w : World) (c : Contest) (url repo_name : string) :
  c.(repo) = Some url ->
  last_opt (split_on "/"%char url) = Some repo_name ->
  metadata_is_ok w ("./clones/" ++ repo_name) = true ->
  process_contest w c
  = ([EvCompile (("./clones/" ++ repo_name) ++ "/src")
                (("./clones/" ++ repo_name) ++ "/remappings.txt")],
     match snd (compile_contracts_from_repo w (("./clones/" ++ repo_name) ++ "/src")
                  (("./clones/" ++ repo_name) ++ "/remappings.txt")) with
     | Ret _ => Ret tt
     | Panic m => Panic m
     end).
Proof.
  intros Hrepo Hname Hmeta.
  pose proof (compile_contracts_from_repo_trace w (("./clones/" ++ repo_name) ++ "/src")
                (("./clones/" ++ repo_name) ++ "/remappings.txt")) as Ht.
  unfold process_contest. rewrite Hrepo. cbn [lift unwrap mbind fst snd].
  rewrite Hname. cbn [lift unwrap mbind fst snd app].
  rewrite Hmeta. cbn [negb mret mbind fst snd app].
  destruct (compile_contracts_from_repo w _ _) as [t [r|m]]; cbn [fst snd] in *;
    subst t; reflexivity.
Qed.

Lemma process_contest_existing_clone_witness :
  process_contest world_unreadable_sources contest_x
  = ([EvCompile "./clones/x/src" "./clones/x/remappings.txt"], Ret tt).
Proof.
  rewrite (process_contest_existing_clone world_unreadable_sources contest_x
             "https://github.com/code-423n4/x" "x" eq_refl eq_refl eq_refl).
  reflexivity.
Defined.

Lemma process_contest_clone_error (w : World) (c : Contest) (url repo_name e : string) :
  c.(repo) = Some url ->
  last_opt (split_on "/"%char url) = Some repo_name ->
  metadata_is_ok w ("./clones/" ++ repo_name) = false ->
  clone_recurse w url ("./clones/" ++ repo_name) = Ret (Err e) ->
  process_contest w c = ([EvClone url ("./clones/" ++ repo_name)], Ret tt).
Proof.
  intros Hrepo Hname Hmeta Hclone.
  unfold process_contest. rewrite Hrepo. cbn [lift unwrap mbind fst snd].
  rewrite Hname. cbn [lift unwrap mbind fst snd app].
  rewrite Hmeta. cbn [negb]. unfold clone_repo.
  cbn [emit lift mbind fst snd app catch_unwind]. rewrite Hclone. reflexivity.
Qed.

(** A contest whose clone fails with an error is skipped ([continue]):
    nothing is printed or compiled for it, and the loop goes on. *)
Theorem process_contest_clone_error_skips (w : World) (c : Contest) (rest : list Contest)
    (url repo_name e : string) :
  c.(repo) = Some url ->
  last_opt (split_on "/"%char url) = Some repo_name ->
  metadata_is_ok w ("./clones/" ++ repo_name) = false ->
  clone_recurse w url ("./clones/" ++ repo_name) = Ret (Err e) ->
  process_contest w c = ([EvClone url ("./clones/" ++ repo_name)], Ret tt)
  /\ main_loop w (c :: rest)
     = (EvClone url ("./clones/" ++ repo_name) :: fst (main_loop w rest),
        snd (main_loop w rest)).
Proof.
  intros Hrepo Hname Hmeta Hclone.
  pose proof (process_contest_clone_error w c url repo_name e Hrepo Hname Hmeta Hclone)
    as Hp.
  split; [exact Hp|]. simpl. rewrite Hp. reflexivity.
Qed.

Lemma process_contest_clone_error_skips_witness :
  main_loop world_clone_fails [contest_x]
  = ([EvClone "https://github.com/code-423n4/x" "./clones/x"], Ret tt).
Proof.
  rewrite (proj2 (process_contest_clone_error_skips world_clone_fails contest_x []
                    "https://github.com/code-423n4/x" "x" "repository not found"
                    eq_refl eq_refl eq_refl eq_refl)).
  reflexivity.
Defined.

(** When the clone of every contest fails with an error, [main] attempts
    one clone per contest, in the order of the contests, compiles nothing
    and finishes normally. *)
Theorem main_loop_all_clones_fail (w : World) (cs : list Contest) :
  Forall (fun c => exists url repo_name e,
            c.(repo) = Some url
            /\ last_opt (split_on "/"%char url) = Some repo_name
            /\ metadata_is_ok w ("./clones/" ++ repo_name) = false
            /\ clone_recurse w url ("./clones/" ++ repo_name) = Ret (Err e)) cs ->
  exists t, main_loop w cs = (t, Ret tt)
            /\ Forall2 (fun c ev => exists url repo_name,
                           c.(repo) = Some url
                           /\ last_opt (split_on "/"%char url) = Some repo_name
                           /\ ev = EvClone url ("./clones/" ++ repo_name)) cs t.
Proof.
  induction 1 as [|c cs (url & repo_name & e & Hrepo & Hname & Hmeta & Hclone) _ IH].
  - exists []. split; constructor.
  - destruct IH as (t & Hloop & Hall).
    exists (EvClone url ("./clones/" ++ repo_name) :: t). split.
    + simpl. rewrite (process_contest_clone_error w c url repo_name e Hrepo Hname Hmeta Hclone).
      cbn [mbind fst snd app]. rewrite Hloop. reflexivity.
    + constructor; [|exact Hall]. exists url, repo_name. auto.
Qed.

Lemma main_loop_all_clones_fail_witness :
  main_loop world_clone_fails [contest_x; contest_y]
  = ([EvClone "https://github.com/code-423n4/x" "./clones/x";
      EvClone "https://github.com/code-423n4/y" "./clones/y"], Ret tt).
Proof.
  assert (Hall : Forall (fun c => exists url repo_name e,
            c.(repo) = Some url
            /\ last_opt (split_on "/"%char url) = Some repo_name
            /\ metadata_is_ok world_clone_fails ("./clones/" ++ repo_name) = false
            /\ clone_recurse world_clone_fails url ("./clones/" ++ repo_name)
               = Ret (Err e)) [contest_x; contest_y]).
  { repeat constructor.
    - exists "https://github.com/code-423n4/x", "x", "repository not found".
      repeat split; reflexivity.
    - exists "https://github.com/code-423n4/y", "y", "repository not found".
      repeat split; reflexivity. }
  destruct (main_loop_all_clones_fail world_clone_fails _ Hall) as (t & Hloop & Ht).
  rewrite Hloop.
  inversion Ht as [|c1 ev1 cs1 t1 (u1 & n1 & Hr1 & Hn1 & ->) Ht1]; subst.
  inversion Ht1 as [|c2 ev2 cs2 t2 (u2 & n2 & Hr2 & Hn2 & ->) Ht2]; subst.
  inversion Ht2; subst.
  cbn in Hr1, Hr2. injection Hr1 as <-. injection Hr2 as <-.
  vm_compute in Hn1, Hn2. injection Hn1 as <-. injection Hn2 as <-.
  reflexivity.
Defined.

(** A contest without a repository makes the run panic at it, before any
    output for it. *)
Theorem main_loop_missing_repo_panics (w : World) (c : Contest) (rest : list Contest) :
  c.(repo) = None -> main_loop w (c :: rest) = ([], Panic unwrap_msg).
Proof. intros H. simpl. unfold process_contest. rewrite H. reflexivity. Qed.

Lemma main_loop_missing_repo_panics_witness :
  main_loop world_clone_panics [contest_with None (Some "public") None; contest_x]
  = ([], Panic unwrap_msg).
Proof. apply main_loop_missing_repo_panics. reflexivity. Defined.

(* ------------------------------------------------------------------ *)
(** ** Remapping paths of a cloned repository *)






(* ------------------------------------------------------------------ *)
(** ** Single-file compilation and the whole run *)

(** [compile_contract_from_source] never returns [Err]: a compiler
    failure panics (the [unwrap] of [compile_exact]), as does an empty
    list of compiler inputs; otherwise it returns the compiler's
    contracts. *)
Theorem compile_contract_from_source_never_err (sc : SolcService)
    (filename source_code : string) :
  (forall e, compile_contract_from_source sc filename source_code <> Ret (Err e))
  /\ (forall input0 rest, with_sources sc [(filename, source_code)] = input0 :: rest ->
        compile_contract_from_source sc filename source_code
        = match compile_exact sc input0 with
          | Ok output => Ret (Ok output)
          | Err _ => Panic result_unwrap_msg
          end)
  /\ (with_sources sc [(filename, source_code)] = [] ->
        compile_contract_from_source sc filename source_code = Panic index_msg).
Proof.
  unfold compile_contract_from_source, index. cbv zeta. split; [|split].
  - intros e. destruct (nth_error (with_sources sc [(filename, source_code)]) 0)
      as [input0|]; [|discriminate]. destruct (compile_exact sc input0); discriminate.
  - intros input0 rest H. rewrite H. reflexivity.
  - intros H. rewrite H. reflexivity.
Qed.

Lemma compile_contract_from_source_never_err_witness :
  with_sources solc_ok [("A.sol", "contract A {}")]
  = [mkCompilerInput ["A.sol"] (mkSettings false [])]
  /\ compile_contract_from_source solc_ok "A.sol" "contract A {}"
     = Ret (Ok (foo_contracts (Bytecode [Byte.x60; Byte.x80]))).
Proof.
  split; [reflexivity|].
  rewrite (proj1 (proj2 (compile_contract_from_source_never_err solc_ok "A.sol"
                           "contract A {}")) _ [] eq_refl).
  reflexivity.
Defined.

(** When the listing page cannot be fetched the run panics before any
    output; when it is fetched but yields no JSON the run prints the
    parser's error and stops normally.  In neither case is anything
    cloned or compiled. *)
Theorem main_json_error_no_work (env : ListingEnv) (parse_from_rfc3339 : string -> option Z)
    (clock : nat -> Z) (w : World) :
  (forall e, get_text env contests_url = Err e ->
     main env parse_from_rfc3339 clock w = ([], Panic result_unwrap_msg))
  /\ (forall page err, get_text env contests_url = Ok page ->
       json_from_str env (scan_scripts EmptyString (script_inner_htmls env page)) = Err err ->
       main env parse_from_rfc3339 clock w = ([EvPrint (json_error_msg err)], Ret tt)).
Proof.
  unfold main, get_active_contests. split.
  - intros e Hg. rewrite Hg. reflexivity.
  - intros page err Hg Hj. rewrite Hg. cbn [lift mbind fst snd app]. rewrite Hj. reflexivity.
Qed.

Lemma main_json_error_no_work_witness :
  main listing_env_unreachable rfc3339_subset (fun _ => 0%Z) world_clone_panics
  = ([], Panic result_unwrap_msg)
  /\ main listing_env_no_payload rfc3339_subset (fun _ => 0%Z) world_clone_panics
     = ([EvPrint (json_error_msg "EOF while parsing a value at line 1 column 0")], Ret tt).
Proof.
  split.
  - apply (proj1 (main_json_error_no_work _ _ _ _) "error sending request for url").
    reflexivity.
  - apply (proj2 (main_json_error_no_work _ _ _ _) "<html></html>"); [reflexivity|].
    vm_compute. reflexivity.
Defined.
